(** * Bulk image optimizer: the UI handlers and the batch engine they drive

    The development follows the TypeScript sources of the application
    shell.  Two revisions of the root component are present among the
    sources: the earlier one (no resize mode, no cancellation plumbing, five
    output formats) is embedded in [Module Legacy], the later one in
    [Module Current].  Both talk to the Rust backend through [invoke]; the
    backend itself is not part of the sources, so the batch coordinator and
    the resize operator are embedded from the specification text in
    [Module Coordinator] and [Module ResizeOperator]. *)

From Stdlib Require Import String Ascii List ZArith QArith Qround Qminmax Lia Lqa Bool Permutation.
From stdpp Require Import base gmap strings.
Import ListNotations.

#[local] Open Scope string_scope.
#[local] Open Scope list_scope.

(** ** JavaScript values used by the handlers

    Numbers are restricted to integers and carried as [Z]; an optional
    property ([width?: number]) is an [option]. *)

Module Js.

(** Truthiness of an optional number: [undefined] and [0] are falsy. *)
Definition truthy_num (n : option Z) : bool :=
  match n with
  | Some v => negb (v =? 0)%Z
  | None => false
  end.

(** Truthiness of a string: only the empty string is falsy. *)
Definition truthy_str (s : string) : bool :=
  match s with
  | EmptyString => false
  | String _ _ => true
  end.

(** [arr.length] as a number. *)
Definition length {A} (l : list A) : Z := Z.of_nat (List.length l).

(** [Math.max(...xs)] on a list known to be non-empty; the seed is only
    reached on the empty list, which every caller guards against. *)
Definition max_of (xs : list Z) : Z :=
  match xs with
  | [] => 0%Z
  | x :: rest => fold_left Z.max rest x
  end.

(** [s.lastIndexOf(c)]: index of the last occurrence, [-1] if none. *)
Fixpoint lastIndexOf_from (c : ascii) (s : string) (i : Z) (found : Z) : Z :=
  match s with
  | EmptyString => found
  | String a rest =>
      lastIndexOf_from c rest (i + 1)%Z (if Ascii.eqb a c then i else found)
  end.

Definition lastIndexOf (c : ascii) (s : string) : Z :=
  lastIndexOf_from c s 0%Z (-1)%Z.

(** [s.substring(0, n)] for [0 <= n]. *)
Definition substring0 (n : Z) (s : string) : string :=
  String.substring 0 (Z.to_nat n) s.

(** [x ?? undefined] on a nullable field: [null] becomes [undefined]. *)
Definition nullish {A} (x : option A) : option A := x.

End Js.

(** ** Shared interface types ([@/types]) *)

Module OperationMode.
Inductive t := optimize | resize | convert | optimize_resize | all.

Definition eqb (a b : t) : bool :=
  match a, b with
  | optimize, optimize | resize, resize | convert, convert
  | optimize_resize, optimize_resize | all, all => true
  | _, _ => false
  end.

(** The string literal of each mode, as sent on the wire. *)
Definition tag (m : t) : string :=
  match m with
  | optimize => "optimize"
  | resize => "resize"
  | convert => "convert"
  | optimize_resize => "optimize_resize"
  | all => "all"
  end.

(** The "Format change?" column of the mode table in the specification. *)
Definition includes_conversion (m : t) : bool :=
  match m with
  | convert | all => true
  | optimize | resize | optimize_resize => false
  end.
End OperationMode.

Module FileStatus.
Inductive t := pending | processing | success | failed.

Definition eqb (a b : t) : bool :=
  match a, b with
  | pending, pending | processing, processing
  | success, success | failed, failed => true
  | _, _ => false
  end.
End FileStatus.

Module ResizeMode.
Inductive t := percentage | dimensions.

Definition eqb (a b : t) : bool :=
  match a, b with
  | percentage, percentage | dimensions, dimensions => true
  | _, _ => false
  end.
End ResizeMode.

(** Result of a single file conversion, as the backend serialises it.  The
    later revision reads two more nullable fields ([output_width],
    [output_height]); the earlier one ignores them. *)
Module FileResult.
Record t := mk {
  path : string;
  status : FileStatus.t;
  output_path : option string;
  output_size : option Z;
  output_width : option Z;
  output_height : option Z;
  error : option string
}.
End FileResult.

Module BatchResult.
Record t := mk {
  results : list FileResult.t;
  total : Z;
  success_count : Z;
  failed_count : Z
}.
End BatchResult.

Module ProgressUpdate.
Record t := mk {
  current : Z;
  success_count : Z;
  failed_count : Z
}.
End ProgressUpdate.

(** A file tracked in the UI. *)
Module TrackedFile.
Record t := mk {
  id : string;
  name : string;
  path : string;
  size : Z;
  width : option Z;
  height : option Z;
  status : FileStatus.t;
  error : option string;
  outputPath : option string;
  outputSize : option Z;
  outputWidth : option Z;
  outputHeight : option Z
}.

(** [{ ...f, status, error }] *)
Definition with_status (st : FileStatus.t) (err : option string) (f : t) : t :=
  {| id := id f; name := name f; path := path f; size := size f;
     width := width f; height := height f;
     status := st; error := err;
     outputPath := outputPath f; outputSize := outputSize f;
     outputWidth := outputWidth f; outputHeight := outputHeight f |}.
End TrackedFile.

(** The request object handed to [optimize_batch].  A property whose value
    is [undefined] is dropped by serialisation, hence [None] stands both for
    an [undefined] value and for a key the object literal does not have. *)
Module Request.
Record t (Fmt : Type) := mk {
  paths : list string;
  output_dir : string;
  format : option Fmt;
  overwrite : bool;
  operation_mode : OperationMode.t;
  quality : option Z;
  resize_mode : option ResizeMode.t;
  resize_percentage : option Z;
  max_width : option Z;
  max_height : option Z;
  keep_aspect_ratio : option bool;
  create_backup : option bool
}.
Arguments mk {Fmt}.
Arguments paths {Fmt}.
Arguments output_dir {Fmt}.
Arguments format {Fmt}.
Arguments overwrite {Fmt}.
Arguments operation_mode {Fmt}.
Arguments quality {Fmt}.
Arguments resize_mode {Fmt}.
Arguments resize_percentage {Fmt}.
Arguments max_width {Fmt}.
Arguments max_height {Fmt}.
Arguments keep_aspect_ratio {Fmt}.
Arguments create_backup {Fmt}.
End Request.

(** ** The root component's state and the handler monad

    The component keeps its state in [useState] cells; a handler reads the
    values captured by its closure and issues state updates and backend
    invocations.  A handler is embedded as a function on a [World]: the
    current cells together with the log of the commands sent to the backend,
    oldest first. *)

Module App.

(** What [invoke] settles to.  A rejection carries the error string of the
    command, so that [String(error)] is that string. *)
Inductive Settled (A : Type) :=
| Resolved (value : A)
| Rejected (error : string).
Arguments Resolved {A}.
Arguments Rejected {A}.

Section Runtime.
Variable Fmt : Type.

Record State := mkState {
  (* file state *)
  files : list TrackedFile.t;
  (* settings state *)
  operationMode : OperationMode.t;
  outputFormat : Fmt;
  outputDir : string;
  overwrite : bool;
  quality : Z;
  resizeMode : ResizeMode.t;
  resizePercentage : Z;
  maxWidth : Z;
  maxHeight : Z;
  keepAspectRatio : bool;
  (* processing state *)
  isProcessing : bool;
  processedFiles : Z;
  successCount : Z;
  failedCount : Z
}.

(** The Tauri commands the UI invokes. *)
Inductive Command :=
| reset_cancel_flag
| optimize_batch (request : Request.t Fmt)
| cancel_batch.

(** How the backend settles each invocation. *)
Record Backend := mkBackend {
  on_reset_cancel_flag : Settled unit;
  on_optimize_batch : Request.t Fmt -> Settled BatchResult.t;
  on_cancel_batch : Settled unit
}.

Record World := mkWorld {
  ui : State;
  sent : list Command
}.

Definition Handler (A : Type) : Type := World -> A * World.

Definition ret {A} (a : A) : Handler A := fun w => (a, w).

Definition bind {A B} (m : Handler A) (k : A -> Handler B) : Handler B :=
  fun w => let (a, w') := m w in k a w'.

Definition update (f : State -> State) : Handler unit :=
  fun w => (tt, {| ui := f (ui w); sent := sent w |}).

Definition send (c : Command) : Handler unit :=
  fun w => (tt, {| ui := ui w; sent := sent w ++ [c] |}).

(** The state setters.  [setFiles] takes the functional form used
    throughout the component. *)
Definition setFiles (f : list TrackedFile.t -> list TrackedFile.t) : Handler unit :=
  update (fun s =>
    mkState (f (files s)) (operationMode s) (outputFormat s) (outputDir s)
      (overwrite s) (quality s) (resizeMode s) (resizePercentage s)
      (maxWidth s) (maxHeight s) (keepAspectRatio s)
      (isProcessing s) (processedFiles s) (successCount s) (failedCount s)).

Definition setOutputDir (d : string) : Handler unit :=
  update (fun s =>
    mkState (files s) (operationMode s) (outputFormat s) d
      (overwrite s) (quality s) (resizeMode s) (resizePercentage s)
      (maxWidth s) (maxHeight s) (keepAspectRatio s)
      (isProcessing s) (processedFiles s) (successCount s) (failedCount s)).

Definition setMaxWidth (v : Z) : Handler unit :=
  update (fun s =>
    mkState (files s) (operationMode s) (outputFormat s) (outputDir s)
      (overwrite s) (quality s) (resizeMode s) (resizePercentage s)
      v (maxHeight s) (keepAspectRatio s)
      (isProcessing s) (processedFiles s) (successCount s) (failedCount s)).

Definition setMaxHeight (v : Z) : Handler unit :=
  update (fun s =>
    mkState (files s) (operationMode s) (outputFormat s) (outputDir s)
      (overwrite s) (quality s) (resizeMode s) (resizePercentage s)
      (maxWidth s) v (keepAspectRatio s)
      (isProcessing s) (processedFiles s) (successCount s) (failedCount s)).

Definition setIsProcessing (b : bool) : Handler unit :=
  update (fun s =>
    mkState (files s) (operationMode s) (outputFormat s) (outputDir s)
      (overwrite s) (quality s) (resizeMode s) (resizePercentage s)
      (maxWidth s) (maxHeight s) (keepAspectRatio s)
      b (processedFiles s) (successCount s) (failedCount s)).

Definition setProcessedFiles (v : Z) : Handler unit :=
  update (fun s =>
    mkState (files s) (operationMode s) (outputFormat s) (outputDir s)
      (overwrite s) (quality s) (resizeMode s) (resizePercentage s)
      (maxWidth s) (maxHeight s) (keepAspectRatio s)
      (isProcessing s) v (successCount s) (failedCount s)).

Definition setSuccessCount (v : Z) : Handler unit :=
  update (fun s =>
    mkState (files s) (operationMode s) (outputFormat s) (outputDir s)
      (overwrite s) (quality s) (resizeMode s) (resizePercentage s)
      (maxWidth s) (maxHeight s) (keepAspectRatio s)
      (isProcessing s) (processedFiles s) v (failedCount s)).

Definition setFailedCount (v : Z) : Handler unit :=
  update (fun s =>
    mkState (files s) (operationMode s) (outputFormat s) (outputDir s)
      (overwrite s) (quality s) (resizeMode s) (resizePercentage s)
      (maxWidth s) (maxHeight s) (keepAspectRatio s)
      (isProcessing s) (processedFiles s) (successCount s) v).

(** [await invoke(...)]: the command is logged, the backend settles it. *)
Section Invoke.
Variable backend : Backend.

Definition invoke_reset_cancel_flag : Handler (Settled unit) :=
  bind (send reset_cancel_flag) (fun _ => ret (on_reset_cancel_flag backend)).

Definition invoke_optimize_batch (request : Request.t Fmt)
  : Handler (Settled BatchResult.t) :=
  bind (send (optimize_batch request))
       (fun _ => ret (on_optimize_batch backend request)).

Definition invoke_cancel_batch : Handler (Settled unit) :=
  bind (send cancel_batch) (fun _ => ret (on_cancel_batch backend)).
End Invoke.

(** Running a handler from a state with an empty command log. *)
Definition exec {A} (h : Handler A) (s : State) : World :=
  snd (h {| ui := s; sent := [] |}).

(** The batch requests among the commands that were sent. *)
Fixpoint submitted (cs : list Command) : list (Request.t Fmt) :=
  match cs with
  | [] => []
  | optimize_batch r :: rest => r :: submitted rest
  | _ :: rest => submitted rest
  end.

(** *** Pieces shared by both revisions of the component *)

(** [newFiles.filter((f) => !existingPaths.has(f.path))] with
    [existingPaths = new Set(prev.map((f) => f.path))]. *)
Definition existingPaths (prev : list TrackedFile.t) : gset string :=
  list_to_set (map TrackedFile.path prev).

Definition uniqueNewFiles (prev newFiles : list TrackedFile.t) : list TrackedFile.t :=
  List.filter
    (fun f => negb (bool_decide (TrackedFile.path f ∈ existingPaths prev)))
    newFiles.

Definition filesWithDims (fs : list TrackedFile.t) : list TrackedFile.t :=
  List.filter
    (fun f => Js.truthy_num (TrackedFile.width f) && Js.truthy_num (TrackedFile.height f))
    fs.

(** [f.width!] *)
Definition width_of (f : TrackedFile.t) : Z := default 0%Z (TrackedFile.width f).
Definition height_of (f : TrackedFile.t) : Z := default 0%Z (TrackedFile.height f).

(** The directory part of a path: everything before the last [/] or
    backslash, when there is one. *)
Definition lastSlashIndex (p : string) : Z :=
  Z.max (Js.lastIndexOf "/"%char p) (Js.lastIndexOf "\"%char p).

(** [handleFilesAdded] is the same function in both revisions.  It is made
    by [useCallback] with the dependencies [files.length] and [outputDir]:
    what it reads of them are the values of the render that made it, which
    need not be the current ones when the drop zone calls it after its
    awaits. *)
Record Closure := mkClosure {
  seenLength : Z;
  seenOutputDir : string
}.

(** The closure of the callback made in state [s]. *)
Definition closureOf (s : State) : Closure :=
  mkClosure (Js.length (files s)) (outputDir s).

(** The first statement of [handleFilesAdded] defaults the output directory
    to the directory of the first new file; its test is on the captured
    values. *)
Definition defaultOutputDir (seen : Closure) (newFiles : list TrackedFile.t)
  : Handler unit :=
  fun w =>
    match newFiles with
    | first :: _ =>
        if (seenLength seen =? 0)%Z && negb (Js.truthy_str (seenOutputDir seen)) then
          let firstFilePath := TrackedFile.path first in
          let i := lastSlashIndex firstFilePath in
          if negb (i =? -1)%Z
          then setOutputDir (Js.substring0 i firstFilePath) w
          else ret tt w
        else ret tt w
    | [] => ret tt w
    end.

(** Its second statement is the [setFiles] updater, which works on the
    current list and also seeds the maximum dimensions the first time files
    are added. *)
Definition appendFiles (newFiles : list TrackedFile.t) : Handler unit :=
  fun w =>
    let prev := files (ui w) in
    let fresh := uniqueNewFiles prev newFiles in
    let allFiles := prev ++ fresh in
    bind
      (if (Js.length prev =? 0)%Z && (0 <? Js.length fresh)%Z then
         let dims := filesWithDims fresh in
         if (0 <? Js.length dims)%Z then
           bind (setMaxWidth (Js.max_of (map width_of dims)))
                (fun _ => setMaxHeight (Js.max_of (map height_of dims)))
         else ret tt
       else ret tt)
      (fun _ => setFiles (fun _ => allFiles))
      w.

(** The callback with the closure it was made with. *)
Definition handleFilesAddedWith (seen : Closure) (newFiles : list TrackedFile.t)
  : Handler unit :=
  bind (defaultOutputDir seen newFiles) (fun _ => appendFiles newFiles).

(** The callback called in the state that made it: its closure holds the
    current values. *)
Definition handleFilesAdded (newFiles : list TrackedFile.t) : Handler unit :=
  fun w => handleFilesAddedWith (closureOf (ui w)) newFiles w.

(** [handleFileRemove] and [handleClearAll]. *)
Definition handleFileRemove (id : string) : Handler unit :=
  setFiles (List.filter (fun f => negb (String.eqb (TrackedFile.id f) id))).

Definition handleClearAll : Handler unit :=
  bind (setFiles (fun _ => []))
    (fun _ => bind (setProcessedFiles 0)
    (fun _ => bind (setSuccessCount 0)
    (fun _ => setFailedCount 0))).

(** [canStart] *)
Definition canStart (s : State) : bool :=
  (0 <? Js.length (files s))%Z
  && (overwrite s || (0 <? Z.of_nat (String.length (outputDir s)))%Z)
  && negb (isProcessing s)
  && existsb (fun f => FileStatus.eqb (TrackedFile.status f) FileStatus.pending
                       || FileStatus.eqb (TrackedFile.status f) FileStatus.failed)
             (files s).

(** The two guards at the top of [handleStart]: the handler goes on only
    when there are files and a destination. *)
Definition startable (s : State) : bool :=
  negb (Js.length (files s) =? 0)%Z
  && negb (negb (overwrite s) && negb (Js.truthy_str (outputDir s))).

(** [{ ...f, status: 'pending', error: undefined }] *)
Definition mark_pending : TrackedFile.t -> TrackedFile.t :=
  TrackedFile.with_status FileStatus.pending None.

(** [{ ...f, status: 'failed', error: String(error) }] *)
Definition mark_failed (error : string) : TrackedFile.t -> TrackedFile.t :=
  TrackedFile.with_status FileStatus.failed (Some error).

(** [result.results.find((r) => r.path === f.path)] *)
Definition find_result (result : BatchResult.t) (f : TrackedFile.t) : option FileResult.t :=
  List.find (fun r => String.eqb (FileResult.path r) (TrackedFile.path f))
            (BatchResult.results result).

(** Modes that resize, and modes that recompress. *)
Definition resizes (m : OperationMode.t) : bool :=
  OperationMode.eqb m OperationMode.resize
  || OperationMode.eqb m OperationMode.optimize_resize
  || OperationMode.eqb m OperationMode.all.

Definition recompresses (m : OperationMode.t) : bool :=
  OperationMode.eqb m OperationMode.optimize
  || OperationMode.eqb m OperationMode.optimize_resize
  || OperationMode.eqb m OperationMode.all.

End Runtime.

Arguments files {Fmt}.
Arguments operationMode {Fmt}.
Arguments outputFormat {Fmt}.
Arguments outputDir {Fmt}.
Arguments overwrite {Fmt}.
Arguments quality {Fmt}.
Arguments resizeMode {Fmt}.
Arguments resizePercentage {Fmt}.
Arguments maxWidth {Fmt}.
Arguments maxHeight {Fmt}.
Arguments keepAspectRatio {Fmt}.
Arguments isProcessing {Fmt}.
Arguments processedFiles {Fmt}.
Arguments successCount {Fmt}.
Arguments failedCount {Fmt}.
Arguments mkState {Fmt}.
Arguments reset_cancel_flag {Fmt}.
Arguments optimize_batch {Fmt}.
Arguments cancel_batch {Fmt}.
Arguments mkBackend {Fmt}.
Arguments on_reset_cancel_flag {Fmt}.
Arguments on_optimize_batch {Fmt}.
Arguments on_cancel_batch {Fmt}.
Arguments mkWorld {Fmt}.
Arguments ui {Fmt}.
Arguments sent {Fmt}.
Arguments ret {Fmt A}.
Arguments bind {Fmt A B}.
Arguments update {Fmt}.
Arguments send {Fmt}.
Arguments setFiles {Fmt}.
Arguments setOutputDir {Fmt}.
Arguments setMaxWidth {Fmt}.
Arguments setMaxHeight {Fmt}.
Arguments setIsProcessing {Fmt}.
Arguments setProcessedFiles {Fmt}.
Arguments setSuccessCount {Fmt}.
Arguments setFailedCount {Fmt}.
Arguments invoke_reset_cancel_flag {Fmt}.
Arguments invoke_optimize_batch {Fmt}.
Arguments invoke_cancel_batch {Fmt}.
Arguments exec {Fmt A}.
Arguments submitted {Fmt}.
Arguments closureOf {Fmt}.
Arguments defaultOutputDir {Fmt}.
Arguments handleFilesAddedWith {Fmt}.
Arguments appendFiles {Fmt}.
Arguments handleFilesAdded {Fmt}.
Arguments handleFileRemove {Fmt}.
Arguments handleClearAll {Fmt}.
Arguments canStart {Fmt}.
Arguments startable {Fmt}.

Declare Scope handler_scope.
Delimit Scope handler_scope with handler.
Notation "x <- c1 ;; c2" := (bind c1 (fun x => c2))
  (at level 100, c1 at next level, right associativity) : handler_scope.
Notation "c1 ;; c2" := (bind c1 (fun _ => c2))
  (at level 100, right associativity) : handler_scope.

End App.


(** ** The earlier revision of the root component

    Five output formats, resize by explicit dimensions only, no
    cancellation command and no backup flag. *)

Module Legacy.
Import App.
#[local] Open Scope handler_scope.

Inductive OutputFormat := png | webp | tiff | qoi | bmp.

Definition format_eqb (a b : OutputFormat) : bool :=
  match a, b with
  | png, png | webp, webp | tiff, tiff | qoi, qoi | bmp, bmp => true
  | _, _ => false
  end.

(** The string literal of each format. *)
Definition format_tag (f : OutputFormat) : string :=
  match f with
  | png => "png"
  | webp => "webp"
  | tiff => "tiff"
  | qoi => "qoi"
  | bmp => "bmp"
  end.

(** The initial values of the [useState] cells.  This revision has no
    [resizeMode] and [resizePercentage] cells: it always resizes by explicit
    dimensions, and no handler below reads the two shared fields. *)
Definition initial : State OutputFormat :=
  {| files := [];
     operationMode := OperationMode.optimize;
     outputFormat := webp;
     outputDir := "";
     overwrite := true;
     quality := 75;
     resizeMode := ResizeMode.dimensions;
     resizePercentage := 100;
     maxWidth := 0;
     maxHeight := 0;
     keepAspectRatio := true;
     isProcessing := false;
     processedFiles := 0;
     successCount := 0;
     failedCount := 0 |}.

(** The object literal passed as [request]. *)
Definition request (s : State OutputFormat) : Request.t OutputFormat :=
  let effectiveOutputDir := if overwrite s then "" else outputDir s in
  {| Request.paths := map TrackedFile.path (files s);
     Request.output_dir := effectiveOutputDir;
     Request.format :=
       if OperationMode.eqb (operationMode s) OperationMode.convert
       then Some (outputFormat s) else None;
     Request.overwrite := overwrite s;
     Request.operation_mode := operationMode s;
     Request.quality :=
       if recompresses (operationMode s)
          && (format_eqb (outputFormat s) webp || format_eqb (outputFormat s) png)
       then Some (quality s) else None;
     Request.resize_mode := None;
     Request.resize_percentage := None;
     Request.max_width :=
       if resizes (operationMode s) && (0 <? maxWidth s)%Z
       then Some (maxWidth s) else None;
     Request.max_height :=
       if resizes (operationMode s) && (0 <? maxHeight s)%Z
       then Some (maxHeight s) else None;
     Request.keep_aspect_ratio := Some (keepAspectRatio s);
     Request.create_backup := None |}.

(** The update of one tracked file from the batch result. *)
Definition apply_result (result : BatchResult.t) (f : TrackedFile.t) : TrackedFile.t :=
  match find_result result f with
  | Some fileResult =>
      {| TrackedFile.id := TrackedFile.id f;
         TrackedFile.name := TrackedFile.name f;
         TrackedFile.path := TrackedFile.path f;
         TrackedFile.size := TrackedFile.size f;
         TrackedFile.width := TrackedFile.width f;
         TrackedFile.height := TrackedFile.height f;
         TrackedFile.status := FileResult.status fileResult;
         TrackedFile.error := Js.nullish (FileResult.error fileResult);
         TrackedFile.outputPath := Js.nullish (FileResult.output_path fileResult);
         TrackedFile.outputSize := Js.nullish (FileResult.output_size fileResult);
         TrackedFile.outputWidth := TrackedFile.outputWidth f;
         TrackedFile.outputHeight := TrackedFile.outputHeight f |}
  | None => f
  end.

Definition handleStart (backend : Backend OutputFormat) : Handler OutputFormat unit :=
  fun w =>
    let s := ui w in
    if (Js.length (files s) =? 0)%Z then ret tt w
    else if negb (overwrite s) && negb (Js.truthy_str (outputDir s)) then ret tt w
    else
      (setIsProcessing true ;;
       setProcessedFiles 0 ;;
       setSuccessCount 0 ;;
       setFailedCount 0 ;;
       (* mark all files as pending *)
       setFiles (map (mark_pending)) ;;
       settled <- invoke_optimize_batch backend (request s) ;;
       match settled with
       | Resolved result =>
           setFiles (map (apply_result result)) ;;
           setProcessedFiles (BatchResult.total result) ;;
           setSuccessCount (BatchResult.success_count result) ;;
           setFailedCount (BatchResult.failed_count result)
       | Rejected error =>
           (* mark all files as failed *)
           setFiles (map (mark_failed error)) ;;
           setProcessedFiles (Js.length (files s)) ;;
           setFailedCount (Js.length (files s))
       end ;;
       (* finally *)
       setIsProcessing false) w.

(** "For now, we just stop the UI": nothing is sent to the backend. *)
Definition handleCancel : Handler OutputFormat unit :=
  setIsProcessing false.

End Legacy.


(** ** The later revision of the root component

    Adds the JPEG target, the percentage resize mode, the progress listener,
    the cancellation commands and the backup flag.  Its [OutputFormat]
    declaration is not among the sources; the constructors are the literals
    the component and its settings panel compare against. *)

Module Current.
Import App.
#[local] Open Scope handler_scope.

Inductive OutputFormat := png | webp | jpeg | tiff | qoi | bmp.

Definition format_eqb (a b : OutputFormat) : bool :=
  match a, b with
  | png, png | webp, webp | jpeg, jpeg | tiff, tiff | qoi, qoi | bmp, bmp => true
  | _, _ => false
  end.

(** The string literal of each format. *)
Definition format_tag (f : OutputFormat) : string :=
  match f with
  | png => "png"
  | webp => "webp"
  | jpeg => "jpeg"
  | tiff => "tiff"
  | qoi => "qoi"
  | bmp => "bmp"
  end.

(** The initial values of the [useState] cells. *)
Definition initial : State OutputFormat :=
  {| files := [];
     operationMode := OperationMode.optimize;
     outputFormat := webp;
     outputDir := "";
     overwrite := true;
     quality := 90;
     resizeMode := ResizeMode.percentage;
     resizePercentage := 75;
     maxWidth := 0;
     maxHeight := 0;
     keepAspectRatio := true;
     isProcessing := false;
     processedFiles := 0;
     successCount := 0;
     failedCount := 0 |}.

(** The listener registered on [progress-update]. *)
Definition onProgressUpdate (payload : ProgressUpdate.t) : Handler OutputFormat unit :=
  setProcessedFiles (ProgressUpdate.current payload) ;;
  setSuccessCount (ProgressUpdate.success_count payload) ;;
  setFailedCount (ProgressUpdate.failed_count payload).

(** The object literal passed as [request]. *)
Definition request (s : State OutputFormat) : Request.t OutputFormat :=
  let effectiveOutputDir := if overwrite s then "" else outputDir s in
  {| Request.paths := map TrackedFile.path (files s);
     Request.output_dir := effectiveOutputDir;
     Request.format :=
       if OperationMode.eqb (operationMode s) OperationMode.convert
       then Some (outputFormat s) else None;
     Request.overwrite := overwrite s;
     Request.operation_mode := operationMode s;
     Request.quality :=
       if recompresses (operationMode s)
          && (format_eqb (outputFormat s) webp
              || format_eqb (outputFormat s) png
              || format_eqb (outputFormat s) jpeg)
       then Some (quality s) else None;
     Request.resize_mode :=
       if resizes (operationMode s) then Some (resizeMode s) else None;
     Request.resize_percentage :=
       if resizes (operationMode s)
          && ResizeMode.eqb (resizeMode s) ResizeMode.percentage
       then Some (resizePercentage s) else None;
     Request.max_width :=
       if resizes (operationMode s)
          && ResizeMode.eqb (resizeMode s) ResizeMode.dimensions
          && (0 <? maxWidth s)%Z
       then Some (maxWidth s) else None;
     Request.max_height :=
       if resizes (operationMode s)
          && ResizeMode.eqb (resizeMode s) ResizeMode.dimensions
          && (0 <? maxHeight s)%Z
       then Some (maxHeight s) else None;
     Request.keep_aspect_ratio := Some (keepAspectRatio s);
     (* only create backup when overwriting files *)
     Request.create_backup := Some (overwrite s) |}.

(** The update of one tracked file from the batch result. *)
Definition apply_result (result : BatchResult.t) (f : TrackedFile.t) : TrackedFile.t :=
  match find_result result f with
  | Some fileResult =>
      {| TrackedFile.id := TrackedFile.id f;
         TrackedFile.name := TrackedFile.name f;
         TrackedFile.path := TrackedFile.path f;
         TrackedFile.size := TrackedFile.size f;
         TrackedFile.width := TrackedFile.width f;
         TrackedFile.height := TrackedFile.height f;
         TrackedFile.status := FileResult.status fileResult;
         TrackedFile.error := Js.nullish (FileResult.error fileResult);
         TrackedFile.outputPath := Js.nullish (FileResult.output_path fileResult);
         TrackedFile.outputSize := Js.nullish (FileResult.output_size fileResult);
         TrackedFile.outputWidth := Js.nullish (FileResult.output_width fileResult);
         TrackedFile.outputHeight := Js.nullish (FileResult.output_height fileResult) |}
  | None => f
  end.

Definition handleStart (backend : Backend OutputFormat) : Handler OutputFormat unit :=
  fun w =>
    let s := ui w in
    if (Js.length (files s) =? 0)%Z then ret tt w
    else if negb (overwrite s) && negb (Js.truthy_str (outputDir s)) then ret tt w
    else
      ((* reset cancellation flag before starting; a failure is only logged *)
       _ <- invoke_reset_cancel_flag backend ;;
       setIsProcessing true ;;
       setProcessedFiles 0 ;;
       setSuccessCount 0 ;;
       setFailedCount 0 ;;
       (* mark all files as pending *)
       setFiles (map (mark_pending)) ;;
       settled <- invoke_optimize_batch backend (request s) ;;
       match settled with
       | Resolved result =>
           setFiles (map (apply_result result)) ;;
           setProcessedFiles (BatchResult.total result) ;;
           setSuccessCount (BatchResult.success_count result) ;;
           setFailedCount (BatchResult.failed_count result)
       | Rejected error =>
           (* mark all files as failed *)
           setFiles (map (mark_failed error)) ;;
           setProcessedFiles (Js.length (files s)) ;;
           setFailedCount (Js.length (files s))
       end ;;
       (* finally *)
       setIsProcessing false) w.

Definition handleCancel (backend : Backend OutputFormat) : Handler OutputFormat unit :=
  settled <- invoke_cancel_batch backend ;;
  match settled with
  | Resolved _ => setIsProcessing false
  | Rejected _ => ret tt
  end.

End Current.


(** ** The batch coordinator and the result aggregator *)

Module Coordinator.

(** Modelled from the spec: the Rust command behind [optimize_batch] (the
    batch coordinator [run], its validation, the duplicate suppression, the
    dispatch loop that reads the cancellation flag, and the result
    aggregator) is not among the sources; only its caller and the
    [BatchResult] declaration are.  The definitions below follow sections
    3, 4.4, 4.5 and 7 of the specification. *)
Inductive InvalidRequest :=
| EmptyPathList
| MissingOutputDirectory.

(** Modelled from the spec: what one pipeline invocation produces (section
    4.3); the pipeline never throws. *)
Inductive Outcome :=
| Written (output_path : string) (output_size : Z) (output_width output_height : Z)
| Failure (message : string).

(** Modelled from the spec: a [FileTask], one input path with the settings
    resolved for it (section 3). *)
Record FileTask (Fmt : Type) := mkTask {
  input : string;
  settings : Request.t Fmt
}.
Arguments mkTask {Fmt}.
Arguments input {Fmt}.
Arguments settings {Fmt}.

(** Modelled from the spec: the per-file outcome as a [FileResult]; it
    carries the input path (sections 3 and 6). *)
Definition file_result {Fmt} (task : FileTask Fmt) (o : Outcome) : FileResult.t :=
  match o with
  | Written out size w h =>
      FileResult.mk (input task) FileStatus.success (Some out) (Some size)
                    (Some w) (Some h) None
  | Failure message =>
      FileResult.mk (input task) FileStatus.failed None None None None (Some message)
  end.

(** Modelled from the spec: a [FileResult] of the pipeline has status
    success or failed (section 3). *)
Definition settled (r : FileResult.t) : Prop :=
  FileResult.status r = FileStatus.success \/ FileResult.status r = FileStatus.failed.

(** Modelled from the spec: request validation, non-empty path list and
    output directory present when not overwriting (sections 4.4 and 7). *)
Definition validate {Fmt} (req : Request.t Fmt) : option InvalidRequest :=
  match Request.paths req with
  | [] => Some EmptyPathList
  | _ :: _ =>
      if negb (Request.overwrite req) && negb (Js.truthy_str (Request.output_dir req))
      then Some MissingOutputDirectory
      else None
  end.

(** Modelled from the spec: duplicate suppression in first-seen order
    (section 4.4). *)
Fixpoint unique_from (seen : gset string) (paths : list string) : list string :=
  match paths with
  | [] => []
  | p :: rest =>
      if bool_decide (p ∈ seen) then unique_from seen rest
      else p :: unique_from ({[ p ]} ∪ seen) rest
  end.

(** Modelled from the spec: the unique input paths of a request. *)
Definition unique_paths (paths : list string) : list string :=
  unique_from ∅ paths.

(** Modelled from the spec: one task per unique input path (section 4.4). *)
Definition tasks {Fmt} (req : Request.t Fmt) : list (FileTask Fmt) :=
  map (fun p => mkTask p req) (unique_paths (Request.paths req)).

(** Modelled from the spec: the result aggregator, a pure fold of the
    completed results into the report (section 4.5). *)
Definition empty_report : BatchResult.t := BatchResult.mk [] 0 0 0.

(** Modelled from the spec: one step of the fold, appending the result and
    incrementing the counters. *)
Definition record_result (acc : BatchResult.t) (r : FileResult.t) : BatchResult.t :=
  BatchResult.mk
    (BatchResult.results acc ++ [r])
    (BatchResult.total acc + 1)
    (BatchResult.success_count acc
     + (if FileStatus.eqb (FileResult.status r) FileStatus.success then 1 else 0))
    (BatchResult.failed_count acc
     + (if FileStatus.eqb (FileResult.status r) FileStatus.failed then 1 else 0)).

(** Modelled from the spec: the report of a list of completed results. *)
Definition aggregate (rs : list FileResult.t) : BatchResult.t :=
  fold_left record_result rs empty_report.

Section Run.
Variable Fmt : Type.

(** The per-file pipeline, one invocation per task. *)
Variable pipeline : FileTask Fmt -> Outcome.

(** The cancellation flag as the coordinator reads it: [cancelled k] is the
    value read just before the task of index [k] would be dispatched. *)
Variable cancelled : nat -> bool.

(** The order in which the dispatched tasks complete on the worker pool. *)
Variable completion : list FileResult.t -> list FileResult.t.

(** Modelled from the spec: the dispatch loop (section 4.4).  It stops at
    the first read that finds the flag set; tasks already dispatched finish,
    the others are left out of the report. *)
Fixpoint dispatch (k : nat) (ts : list (FileTask Fmt)) : list FileResult.t :=
  match ts with
  | [] => []
  | t :: rest =>
      if cancelled k then []
      else file_result t (pipeline t) :: dispatch (S k) rest
  end.

(** Modelled from the spec: [run], the contract of the coordinator (section
    4.4): validate, dispatch one task per unique path, aggregate what
    completed. *)
Definition run (req : Request.t Fmt) : InvalidRequest + BatchResult.t :=
  match validate req with
  | Some e => inl e
  | None => inr (aggregate (completion (dispatch 0 (tasks req))))
  end.

End Run.

Arguments dispatch {Fmt}.
Arguments run {Fmt}.

End Coordinator.


(** ** The resize operator *)

Module ResizeOperator.

(** Modelled from the spec: the resize operator of the Rust backend is not
    among the sources.  The definitions below follow sections 3 and 4.2 of
    the specification, with exact rational arithmetic in place of floating
    point and rounding to the nearest integer, halves upwards. *)
Inductive ResizeSpec :=
| Percentage (p : Z)
| Dimensions (maxW maxH : Z).

(** Modelled from the spec: the decoded pixel buffer (section 3). *)
Record PixelBuffer := mkBuffer {
  width : Z;
  height : Z;
  pixels : list Z;
  source_format : string
}.

(** Modelled from the spec: rounding to the nearest integer. *)
Definition round (q : Q) : Z := Qfloor (q + (1 # 2))%Q.

(** Modelled from the spec: output dimensions are at least one pixel per
    axis (section 4.2, edge cases). *)
Definition at_least_one (n : Z) : Z := Z.max 1 n.

(** Modelled from the spec: one axis scaled, rounded and floored at one
    pixel. *)
Definition scaled (n : Z) (scale : Q) : Z :=
  at_least_one (round (inject_Z n * scale)%Q).

(** Modelled from the spec: the scale factor of the aspect-locked Dimensions
    mode, the factor that fits the image in the box, never above 1.  A zero
    bound disables the constraint on its axis. *)
Definition fit_scale (w h maxW maxH : Z) : Q :=
  let scale :=
    if (0 <? maxW)%Z && (0 <? maxH)%Z
    then Qmin (inject_Z maxW / inject_Z w)%Q (inject_Z maxH / inject_Z h)%Q
    else if (0 <? maxW)%Z then (inject_Z maxW / inject_Z w)%Q
    else (inject_Z maxH / inject_Z h)%Q
  in Qmin scale 1%Q.

(** Modelled from the spec: the target size for each resize mode (section
    4.2).  Percentage scales each axis; Dimensions without the aspect lock
    takes the positive bounds as they are; with both bounds zero the size is
    unchanged. *)
Definition target_dimensions (w h : Z) (spec : ResizeSpec) (keepAspectRatio : bool)
  : Z * Z :=
  match spec with
  | Percentage p =>
      (scaled w (inject_Z p / 100)%Q, scaled h (inject_Z p / 100)%Q)
  | Dimensions maxW maxH =>
      if negb (0 <? maxW)%Z && negb (0 <? maxH)%Z then (w, h)
      else if keepAspectRatio then
        let scale := fit_scale w h maxW maxH in
        (scaled w scale, scaled h scale)
      else
        ((if (0 <? maxW)%Z then maxW else w),
         (if (0 <? maxH)%Z then maxH else h))
  end.


Section Resample.

(** The Lanczos-3 resampling filter: source buffer and target size to the
    resampled pixel data. *)
Variable lanczos3 : PixelBuffer -> Z -> Z -> list Z.

(** Modelled from the spec: [resize], the contract of the operator.  With
    both bounds zero the original buffer passes through unchanged. *)
Definition resize (buf : PixelBuffer) (spec : ResizeSpec) (keepAspectRatio : bool)
  : PixelBuffer :=
  match spec with
  | Dimensions maxW maxH =>
      if negb (0 <? maxW)%Z && negb (0 <? maxH)%Z then buf
      else
        let (w, h) := target_dimensions (width buf) (height buf) spec keepAspectRatio in
        mkBuffer w h (lanczos3 buf w h) (source_format buf)
  | Percentage _ =>
      let (w, h) := target_dimensions (width buf) (height buf) spec keepAspectRatio in
      mkBuffer w h (lanczos3 buf w h) (source_format buf)
  end.

End Resample.

End ResizeOperator.



(** ** More JavaScript string operations

    A JavaScript string is a sequence of UTF-16 code units, and [length],
    [lastIndexOf], [slice], [substring] and [split] count in code units.  A
    character of a [string] here stands for one code unit below 256, that
    is, a character of ASCII or of the Latin-1 supplement; file names and
    paths with a code unit of 256 or more are outside the model.  On this
    alphabet [toLowerCase] maps one code unit to one code unit: the letters
    [A] to [Z] (65 to 90) and the capital letters of the Latin-1 supplement
    (192 to 214 and 216 to 222) move up by 32, and every other code unit
    stays.  Beyond it the lower case of a character can be longer than the
    character (U+0130 becomes two code units), which no string here can
    express. *)

Module JsString.

(** The lower case of one code unit below 256. *)
Definition lower_char (c : ascii) : ascii :=
  let n := nat_of_ascii c in
  if ((65 <=? n)%nat && (n <=? 90)%nat)
     || ((192 <=? n)%nat && (n <=? 214)%nat)
     || ((216 <=? n)%nat && (n <=? 222)%nat)
  then ascii_of_nat (n + 32) else c.

(** [s.toLowerCase()] for a string of code units below 256. *)
Fixpoint toLowerCase (s : string) : string :=
  match s with
  | EmptyString => EmptyString
  | String c rest => String (lower_char c) (toLowerCase rest)
  end.

Fixpoint drop (n : nat) (s : string) : string :=
  match n, s with
  | O, _ => s
  | S k, EmptyString => EmptyString
  | S k, String _ rest => drop k rest
  end.

(** [s.slice(start)]: a negative start counts from the end. *)
Definition slice (start : Z) (s : string) : string :=
  let len := Z.of_nat (String.length s) in
  let from := if (start <? 0)%Z then Z.max (len + start) 0 else Z.min start len in
  drop (Z.to_nat from) s.

(** Whether a character occurs in a string. *)
Fixpoint occurs (c : ascii) (s : string) : bool :=
  match s with
  | EmptyString => false
  | String a rest => Ascii.eqb a c || occurs c rest
  end.

(** The separators of the regular expression [/[\\/]/]. *)
Definition is_separator (c : ascii) : bool :=
  Ascii.eqb c "/"%char || Ascii.eqb c "\"%char.

(** [s.split(/[\\/]/)]: the segments between separators; never empty. *)
Fixpoint split_separators (s : string) : list string :=
  match s with
  | EmptyString => [EmptyString]
  | String c rest =>
      if is_separator c then EmptyString :: split_separators rest
      else match split_separators rest with
           | segment :: more => String c segment :: more
           | [] => [String c EmptyString]
           end
  end.

(** [arr.pop()] read as a value: the last element. *)
Definition pop (segments : list string) : string := List.last segments EmptyString.

(** [arr.includes(x)] on strings. *)
Definition includes (xs : list string) (x : string) : bool :=
  existsb (String.eqb x) xs.

End JsString.


(** ** The remaining state cells and [handleFormatChange] *)

Module Cells.
Import App.

Section Cells.
Variable Fmt : Type.

Definition setOutputFormat (f : Fmt) : Handler Fmt unit :=
  update (fun s =>
    mkState (files s) (operationMode s) f (outputDir s)
      (overwrite s) (quality s) (resizeMode s) (resizePercentage s)
      (maxWidth s) (maxHeight s) (keepAspectRatio s)
      (isProcessing s) (processedFiles s) (successCount s) (failedCount s)).

Definition setQuality (q : Z) : Handler Fmt unit :=
  update (fun s =>
    mkState (files s) (operationMode s) (outputFormat s) (outputDir s)
      (overwrite s) q (resizeMode s) (resizePercentage s)
      (maxWidth s) (maxHeight s) (keepAspectRatio s)
      (isProcessing s) (processedFiles s) (successCount s) (failedCount s)).

Definition setOperationMode (m : OperationMode.t) : Handler Fmt unit :=
  update (fun s =>
    mkState (files s) m (outputFormat s) (outputDir s)
      (overwrite s) (quality s) (resizeMode s) (resizePercentage s)
      (maxWidth s) (maxHeight s) (keepAspectRatio s)
      (isProcessing s) (processedFiles s) (successCount s) (failedCount s)).

Definition setOverwrite (b : bool) : Handler Fmt unit :=
  update (fun s =>
    mkState (files s) (operationMode s) (outputFormat s) (outputDir s)
      b (quality s) (resizeMode s) (resizePercentage s)
      (maxWidth s) (maxHeight s) (keepAspectRatio s)
      (isProcessing s) (processedFiles s) (successCount s) (failedCount s)).

End Cells.

Arguments setOutputFormat {Fmt}.
Arguments setQuality {Fmt}.
Arguments setOperationMode {Fmt}.
Arguments setOverwrite {Fmt}.

End Cells.

Module LegacyFormat.
Import App Cells.
#[local] Open Scope handler_scope.

(** Adjust quality when the format changes: 90 for png, 75 for webp. *)
Definition handleFormatChange (format : Legacy.OutputFormat)
  : Handler Legacy.OutputFormat unit :=
  setOutputFormat format ;;
  if Legacy.format_eqb format Legacy.png then setQuality 90
  else if Legacy.format_eqb format Legacy.webp then setQuality 75
  else ret tt.

End LegacyFormat.

Module CurrentFormat.
Import App Cells.
#[local] Open Scope handler_scope.

(** Adjust quality when the format changes: 90 for png, 75 for webp, 85 for
    jpeg. *)
Definition handleFormatChange (format : Current.OutputFormat)
  : Handler Current.OutputFormat unit :=
  setOutputFormat format ;;
  if Current.format_eqb format Current.png then setQuality 90
  else if Current.format_eqb format Current.webp then setQuality 75
  else if Current.format_eqb format Current.jpeg then setQuality 85
  else ret tt.

End CurrentFormat.


(** ** The settings panel

    What the panel renders is a function of the props the root component
    passes; [disabled] is wired to [isProcessing]. *)

Module LegacyPanel.
Import App.

Definition maxOriginalWidth (s : State Legacy.OutputFormat) : Z :=
  let dims := filesWithDims (files s) in
  if (0 <? Js.length dims)%Z then Js.max_of (map width_of dims) else 0%Z.

Definition maxOriginalHeight (s : State Legacy.OutputFormat) : Z :=
  let dims := filesWithDims (files s) in
  if (0 <? Js.length dims)%Z then Js.max_of (map height_of dims) else 0%Z.

(** Output format: only for convert mode. *)
Definition showsFormat (s : State Legacy.OutputFormat) : bool :=
  OperationMode.eqb (operationMode s) OperationMode.convert.

(** The folder input and the browse button. *)
Definition outputDirDisabled (s : State Legacy.OutputFormat) : bool :=
  isProcessing s || overwrite s.

Definition showsOutputDir (s : State Legacy.OutputFormat) : bool :=
  Js.truthy_str (outputDir s) && negb (overwrite s).

(** Quality control for WebP and PNG. *)
Definition showsQuality (s : State Legacy.OutputFormat) : bool :=
  recompresses (operationMode s)
  && (Legacy.format_eqb (outputFormat s) Legacy.webp
      || Legacy.format_eqb (outputFormat s) Legacy.png).

(** Resize options. *)
Definition showsResize (s : State Legacy.OutputFormat) : bool :=
  resizes (operationMode s).

(** [handleSelectFolder]: the dialog yields a folder or [null]. *)
Definition handleSelectFolder (selected : option string)
  : Handler Legacy.OutputFormat unit :=
  match selected with
  | Some dir => if Js.truthy_str dir then setOutputDir dir else ret tt
  | None => ret tt
  end.

End LegacyPanel.

Module CurrentPanel.
Import App.

Definition maxOriginalWidth (s : State Current.OutputFormat) : Z :=
  let dims := filesWithDims (files s) in
  if (0 <? Js.length dims)%Z then Js.max_of (map width_of dims) else 0%Z.

Definition maxOriginalHeight (s : State Current.OutputFormat) : Z :=
  let dims := filesWithDims (files s) in
  if (0 <? Js.length dims)%Z then Js.max_of (map height_of dims) else 0%Z.

(** Output format: only for convert mode. *)
Definition showsFormat (s : State Current.OutputFormat) : bool :=
  OperationMode.eqb (operationMode s) OperationMode.convert.

(** The folder input and the browse button. *)
Definition outputDirDisabled (s : State Current.OutputFormat) : bool :=
  isProcessing s
  || (negb (OperationMode.eqb (operationMode s) OperationMode.convert) && overwrite s).

Definition showsOutputDir (s : State Current.OutputFormat) : bool :=
  Js.truthy_str (outputDir s)
  && (OperationMode.eqb (operationMode s) OperationMode.convert || negb (overwrite s)).

(** Overwrite option: hidden in convert mode. *)
Definition showsOverwrite (s : State Current.OutputFormat) : bool :=
  negb (OperationMode.eqb (operationMode s) OperationMode.convert).

(** Quality control. *)
Definition showsQuality (s : State Current.OutputFormat) : bool :=
  recompresses (operationMode s)
  && (Current.format_eqb (outputFormat s) Current.webp
      || Current.format_eqb (outputFormat s) Current.png
      || Current.format_eqb (outputFormat s) Current.jpeg).

(** Resize options, and the block of each resize mode. *)
Definition showsResize (s : State Current.OutputFormat) : bool :=
  resizes (operationMode s).

Definition showsPercentage (s : State Current.OutputFormat) : bool :=
  showsResize s && ResizeMode.eqb (resizeMode s) ResizeMode.percentage.

Definition showsDimensions (s : State Current.OutputFormat) : bool :=
  showsResize s && ResizeMode.eqb (resizeMode s) ResizeMode.dimensions.

(** [handleSelectFolder]: the dialog yields a folder or [null]. *)
Definition handleSelectFolder (selected : option string)
  : Handler Current.OutputFormat unit :=
  match selected with
  | Some dir => if Js.truthy_str dir then setOutputDir dir else ret tt
  | None => ret tt
  end.

End CurrentPanel.


(** ** The progress panel *)

Module ProgressPanel.

Record Props := mkProps {
  isProcessing : bool;
  totalFiles : Z;
  processedFiles : Z;
  successCount : Z;
  failedCount : Z;
  outputDir : string;
  canStart : bool
}.

Definition isDone (p : Props) : bool :=
  negb (isProcessing p)
  && (0 <? processedFiles p)%Z
  && (processedFiles p =? totalFiles p)%Z.


(** The start button. *)
Definition startDisabled (p : Props) : bool :=
  negb (canStart p) || isProcessing p.

(** The cancel button, the open-folder button, the statistics line. *)
Definition showsCancel (p : Props) : bool := isProcessing p.

Definition showsOpenFolder (p : Props) : bool :=
  isDone p && Js.truthy_str (outputDir p).

Definition showsStats (p : Props) : bool := (0 <? processedFiles p)%Z.

Definition showsFailed (p : Props) : bool :=
  showsStats p && (0 <? failedCount p)%Z.

(** The props as the root component passes them. *)
Definition props {Fmt} (s : App.State Fmt) : Props :=
  {| isProcessing := App.isProcessing s;
     totalFiles := Js.length (App.files s);
     processedFiles := App.processedFiles s;
     successCount := App.successCount s;
     failedCount := App.failedCount s;
     outputDir := App.outputDir s;
     canStart := App.canStart s |}.

End ProgressPanel.


(** ** The drop zone

    The handlers of the drop zone are asynchronous: they probe the file
    system ([stat]) and the backend ([get_image_dimensions]) for each file and
    then hand the tracked files they built to [onFilesAdded].  The probes are
    taken as an environment; the identifiers, which the source draws at
    random, as the sequence of the values drawn. *)

Module DropZone.

(** Supported image extensions for filtering. *)
Definition SUPPORTED_EXTENSIONS : list string :=
  [".png"; ".jpg"; ".jpeg"; ".webp"; ".tiff"; ".tif"; ".bmp"; ".gif"; ".qoi"].

(** The extensions of the file dialog's filter. *)
Definition dialogExtensions : list string :=
  ["png"; "jpg"; "jpeg"; "webp"; "tiff"; "tif"; "bmp"; "qoi"; "gif"].

Definition isValidImageFile (filename : string) : bool :=
  let ext := JsString.slice (Js.lastIndexOf "."%char filename)
                            (JsString.toLowerCase filename) in
  JsString.includes SUPPORTED_EXTENSIONS ext.

(** [path.split(/[\\/]/).pop() || path] *)
Definition fileName (path : string) : string :=
  let last := JsString.pop (JsString.split_separators path) in
  if Js.truthy_str last then last else path.

Record Env := mkEnv {
  (* [stat(path)]: the size, or a failure *)
  stat : string -> option Z;
  (* [invoke('get_image_dimensions', { path })]: width and height, or a failure *)
  get_image_dimensions : string -> option (Z * Z);
  (* the identifiers [generateId()] returns, in the order of the calls *)
  generateId : nat -> string
}.

(** The object pushed on [trackedFiles]; [dimensions?.width] is undefined
    when the probe failed or was not made. *)
Definition tracked (id name path : string) (size : Z) (dimensions : option (Z * Z))
  : TrackedFile.t :=
  TrackedFile.mk id name path size
                 (option_map fst dimensions) (option_map snd dimensions)
                 FileStatus.pending None None None None None.

(** What the file dialog resolves to. *)
Inductive Selection :=
| Dismissed
| One (path : string)
| Many (paths : list string).

(** A file of a drop: its name, the non-standard [path] property when the
    platform provides it, and its size. *)
Record DroppedFile := mkDropped {
  name : string;
  path : option string;
  size : Z
}.

(** [!selected] is true for [null] and for the empty string; an array, even
    an empty one, is truthy. *)
Definition truthy_selection (selected : Selection) : bool :=
  match selected with
  | Dismissed => false
  | One p => Js.truthy_str p
  | Many _ => true
  end.

(** [Array.isArray(selected) ? selected : [selected]] *)
Definition selectedPaths (selected : Selection) : list string :=
  match selected with
  | Dismissed => []
  | One p => [p]
  | Many ps => ps
  end.

Section Handlers.
Variable env : Env.

(** The loop of [handleFileInput]: a path whose [stat] fails is skipped. *)
Fixpoint trackSelected (k : nat) (paths : list string) : list TrackedFile.t :=
  match paths with
  | [] => []
  | p :: rest =>
      match stat env p with
      | Some fileSize =>
          tracked (generateId env k) (fileName p) p fileSize (get_image_dimensions env p)
          :: trackSelected (S k) rest
      | None => trackSelected k rest
      end
  end.

(** The argument [onFilesAdded] is called with, if it is called. *)
Definition announce (trackedFiles : list TrackedFile.t) : option (list TrackedFile.t) :=
  if (0 <? Js.length trackedFiles)%Z then Some trackedFiles else None.

Definition handleFileInput (disabled : bool) (selected : Selection)
  : option (list TrackedFile.t) :=
  if disabled then None
  else if negb (truthy_selection selected) then None
  else announce (trackSelected 0 (selectedPaths selected)).

(** [file.path || file.name] *)
Definition droppedPath (file : DroppedFile) : string :=
  match path file with
  | Some p => if Js.truthy_str p then p else name file
  | None => name file
  end.

(** The loop of [handleDrop]: a file whose name is not an image name is
    skipped; one whose [stat] fails is kept with the size the drop reports. *)
Fixpoint trackDropped (k : nat) (droppedFiles : list DroppedFile) : list TrackedFile.t :=
  match droppedFiles with
  | [] => []
  | file :: rest =>
      if isValidImageFile (name file) then
        let p := droppedPath file in
        match stat env p with
        | Some fileSize =>
            tracked (generateId env k) (name file) p fileSize (get_image_dimensions env p)
        | None =>
            tracked (generateId env k) (name file) p (size file) None
        end :: trackDropped (S k) rest
      else trackDropped k rest
  end.

(** [handleDrop] clears the dragging highlight first; the pair is the new
    value of [isDragging] and the call of [onFilesAdded]. *)
Definition handleDrop (disabled : bool) (droppedFiles : list DroppedFile)
  : bool * option (list TrackedFile.t) :=
  if disabled then (false, None)
  else (false, announce (trackDropped 0 droppedFiles)).

End Handlers.

(** The root component passes [handleFilesAdded] as [onFilesAdded]; the
    handlers of the drop zone call the one they captured, with the closure it
    had then. *)
Definition onFilesAdded {Fmt} (seen : App.Closure)
    (call : option (list TrackedFile.t)) : App.Handler Fmt unit :=
  match call with
  | Some trackedFiles => App.handleFilesAddedWith seen trackedFiles
  | None => App.ret tt
  end.

(** [files.reduce((acc, f) => acc + f.size, 0)] *)
Definition totalSize (files : list TrackedFile.t) : Z :=
  fold_left (fun acc f => (acc + TrackedFile.size f)%Z) files 0%Z.

End DropZone.


(** ** The option tables of [@/types] *)

Module Options.

Record ModeOption := mkModeOption {
  value : OperationMode.t;
  label : string;
  description : string
}.

Definition OPERATION_MODE_OPTIONS : list ModeOption :=
  [ mkModeOption OperationMode.optimize "Optimize Only"
      "Compress images to reduce file size";
    mkModeOption OperationMode.resize "Resize Only"
      "Change image dimensions without compression";
    mkModeOption OperationMode.convert "Convert Only"
      "Change format without optimization (lossless)";
    mkModeOption OperationMode.optimize_resize "Optimize + Resize"
      "Compress and resize images together";
    mkModeOption OperationMode.all "All-in-One"
      "Convert, optimize, and resize in one go" ].

Definition FORMAT_OPTIONS : list (Legacy.OutputFormat * string) :=
  [ (Legacy.png, "PNG (Lossy - PngQuant)");
    (Legacy.webp, "WebP (Lossy)");
    (Legacy.tiff, "TIFF");
    (Legacy.qoi, "QOI (Quite OK Image)");
    (Legacy.bmp, "BMP") ].

(** [OPERATION_MODE_OPTIONS.find((opt) => opt.value === operationMode)?.description],
    the text of the info badge of the earlier settings panel. *)
Definition modeDescription (operationMode : OperationMode.t) : option string :=
  option_map description
    (List.find (fun opt => OperationMode.eqb (value opt) operationMode)
               OPERATION_MODE_OPTIONS).

End Options.


(** ** Views of the component state used to state what handlers keep *)

Module Observe.
Import App.

(** The settings cells, in the order the component declares them. *)
Definition settings {Fmt} (s : State Fmt)
  : OperationMode.t * Fmt * string * bool * Z * ResizeMode.t * Z * Z * Z * bool :=
  (operationMode s, outputFormat s, outputDir s, overwrite s, quality s,
   resizeMode s, resizePercentage s, maxWidth s, maxHeight s, keepAspectRatio s).

(** The counters of the processing state. *)
Definition counters {Fmt} (s : State Fmt) : Z * Z * Z :=
  (processedFiles s, successCount s, failedCount s).

(** What identifies a tracked file and describes its source. *)
Definition source (f : TrackedFile.t)
  : string * string * string * Z * option Z * option Z :=
  (TrackedFile.id f, TrackedFile.name f, TrackedFile.path f, TrackedFile.size f,
   TrackedFile.width f, TrackedFile.height f).

(** What a tracked file shows of the first result with its path, or, when
    the report has none, of a file that is still pending. *)
Definition shows (result : BatchResult.t) (f : TrackedFile.t) : Prop :=
  match find_result result f with
  | Some r =>
      TrackedFile.status f = FileResult.status r
      /\ TrackedFile.error f = FileResult.error r
      /\ TrackedFile.outputPath f = FileResult.output_path r
      /\ TrackedFile.outputSize f = FileResult.output_size r
  | None =>
      TrackedFile.status f = FileStatus.pending /\ TrackedFile.error f = None
  end.

End Observe.


(** ** Sample inputs used to exercise the handlers *)

Module Samples.
Import App.

(** A tracked file as the drop zone builds it. *)
Definition photo (id path : string) : TrackedFile.t :=
  TrackedFile.mk id "a.png" path 1024 (Some 800%Z) (Some 600%Z)
                 FileStatus.pending None None None None None.

(** A backend that converts every path it is given. *)
Definition converted (path : string) : FileResult.t :=
  FileResult.mk path FileStatus.success (Some path) (Some 512%Z) None None None.

Definition accepting {Fmt} : Backend Fmt :=
  mkBackend (Resolved tt)
            (fun request =>
               let rs := map converted (Request.paths request) in
               Resolved (BatchResult.mk rs (Js.length rs) (Js.length rs) 0))
            (Resolved tt).


(** Component states with the given file list and settings. *)
Definition legacy_state (fs : list TrackedFile.t) (mode : OperationMode.t)
    (fmt : Legacy.OutputFormat) (dir : string) (ow : bool) : State Legacy.OutputFormat :=
  mkState fs mode fmt dir ow 75 ResizeMode.dimensions 100 0 0 true false 0 0 0.

Definition current_state (fs : list TrackedFile.t) (mode : OperationMode.t)
    (fmt : Current.OutputFormat) (dir : string) (ow : bool) : State Current.OutputFormat :=
  mkState fs mode fmt dir ow 90 ResizeMode.percentage 75 0 0 true false 0 0 0.

(** A request for the coordinator: two distinct paths, one of them given
    twice, written beside their sources. *)
Definition three_paths : Request.t Current.OutputFormat :=
  Request.mk ["/img/a.png"; "/img/b.png"; "/img/a.png"] "" None true
             OperationMode.optimize (Some 90%Z) None None None None
             (Some true) (Some true).

(** A pipeline that succeeds on every task. *)
Definition always_written (task : Coordinator.FileTask Current.OutputFormat)
  : Coordinator.Outcome :=
  Coordinator.Written (Coordinator.input task) 512 800 600.

(** The flag is found set from the read of index [n] on. *)
Definition cancel_from (n : nat) (k : nat) : bool := (n <=? k)%nat.

(** The flag is never set. *)
Definition never_cancelled (k : nat) : bool := false.

(** Tasks complete in dispatch order, or in the reverse order. *)
Definition in_order (rs : list FileResult.t) : list FileResult.t := rs.
Definition reversed (rs : list FileResult.t) : list FileResult.t := rev rs.

End Samples.


(** ** More sample inputs *)

Module MoreSamples.
Import App.

(** A file system with two readable images, one of which the backend can
    measure. *)
Definition disk : DropZone.Env :=
  DropZone.mkEnv
    (fun p => if String.eqb p "/img/a.png" then Some 1024%Z
              else if String.eqb p "/img/b.jpg" then Some 2048%Z
              else None)
    (fun p => if String.eqb p "/img/a.png" then Some (800%Z, 600%Z) else None)
    (fun k => String (ascii_of_nat (97 + k)) EmptyString).

Definition picked : DropZone.Selection :=
  DropZone.Many ["/img/a.png"; "/img/gone.png"; "/img/b.jpg"].

Definition dropped : list DropZone.DroppedFile :=
  [ DropZone.mkDropped "a.png" (Some "/img/a.png") 1000;
    DropZone.mkDropped "notes.txt" None 10;
    DropZone.mkDropped "lost.gif" None 77 ].

Definition two_files : list TrackedFile.t :=
  [Samples.photo "f1" "/img/a.png"; Samples.photo "f2" "/img/b.png"].

Definition legacy_two : State Legacy.OutputFormat :=
  Samples.legacy_state two_files OperationMode.optimize Legacy.webp "" true.

Definition current_two : State Current.OutputFormat :=
  Samples.current_state two_files OperationMode.optimize Current.webp "" true.

(** The report [Samples.accepting] resolves with for the two files. *)
Definition two_converted : BatchResult.t :=
  BatchResult.mk
    [Samples.converted "/img/a.png"; Samples.converted "/img/b.png"] 2 2 0.

(** Resizing to explicit dimensions. *)
Definition legacy_resizing : State Legacy.OutputFormat :=
  mkState two_files OperationMode.resize Legacy.png "/out" false 75
          ResizeMode.dimensions 100 1920 1080 true false 0 0 0.

Definition current_resizing : State Current.OutputFormat :=
  mkState two_files OperationMode.resize Current.png "/out" false 90
          ResizeMode.dimensions 75 1920 1080 true false 0 0 0.

(** Worlds with an empty command log. *)
Definition legacy_start : World Legacy.OutputFormat := mkWorld Legacy.initial [].
Definition current_start : World Current.OutputFormat := mkWorld Current.initial [].
Definition legacy_tracking : World Legacy.OutputFormat := mkWorld legacy_resizing [].

End MoreSamples.


(** * Properties *)

(** ** The guards of [handleStart] and the commands it sends *)

Section StartFacts.
Import App.

Lemma startable_false_iff {Fmt} (s : State Fmt) :
  startable s = false <->
  files s = [] \/ (overwrite s = false /\ outputDir s = "").
Proof.
  unfold startable, Js.length, Js.truthy_str.
  destruct (files s) as [|f fs]; simpl.
  - split; auto.
  - destruct (overwrite s); simpl.
    + split; [discriminate | intros [H | [H _]]; discriminate].
    + destruct (outputDir s); simpl.
      * split; auto.
      * split; [discriminate | intros [H | [_ H]]; discriminate].
Qed.

Lemma legacy_handleStart_idle b (w : World Legacy.OutputFormat) :
  startable (ui w) = false -> Legacy.handleStart b w = (tt, w).
Proof.
  unfold startable, Legacy.handleStart, ret.
  destruct (Js.length (files (ui w)) =? 0)%Z; [reflexivity | simpl].
  destruct (negb (overwrite (ui w)) && negb (Js.truthy_str (outputDir (ui w))));
    [reflexivity | discriminate].
Qed.

Lemma current_handleStart_idle b (w : World Current.OutputFormat) :
  startable (ui w) = false -> Current.handleStart b w = (tt, w).
Proof.
  unfold startable, Current.handleStart, ret.
  destruct (Js.length (files (ui w)) =? 0)%Z; [reflexivity | simpl].
  destruct (negb (overwrite (ui w)) && negb (Js.truthy_str (outputDir (ui w))));
    [reflexivity | discriminate].
Qed.

Lemma legacy_handleStart_sent b (w : World Legacy.OutputFormat) :
  sent (snd (Legacy.handleStart b w)) =
  sent w ++ (if startable (ui w) then [optimize_batch (Legacy.request (ui w))] else []).
Proof.
  destruct (startable (ui w)) eqn:E.
  - unfold startable in E. apply andb_true_iff in E as [E1 E2].
    apply negb_true_iff in E1, E2.
    unfold Legacy.handleStart. rewrite E1, E2.
    cbn. destruct (on_optimize_batch b (Legacy.request (ui w))); reflexivity.
  - rewrite legacy_handleStart_idle by exact E. simpl. now rewrite app_nil_r.
Qed.

Lemma current_handleStart_sent b (w : World Current.OutputFormat) :
  sent (snd (Current.handleStart b w)) =
  sent w ++ (if startable (ui w)
             then [reset_cancel_flag; optimize_batch (Current.request (ui w))]
             else []).
Proof.
  destruct (startable (ui w)) eqn:E.
  - unfold startable in E. apply andb_true_iff in E as [E1 E2].
    apply negb_true_iff in E1, E2.
    unfold Current.handleStart. rewrite E1, E2.
    cbn. destruct (on_optimize_batch b (Current.request (ui w))); cbn;
      now rewrite <- app_assoc.
  - rewrite current_handleStart_idle by exact E. simpl. now rewrite app_nil_r.
Qed.

End StartFacts.

(** ** What [handleStart] submits *)

Section Submission.
Import App.

Lemma legacy_submitted_request b (s : State Legacy.OutputFormat) req :
  In (optimize_batch req) (sent (exec (Legacy.handleStart b) s)) ->
  startable s = true /\ req = Legacy.request s.
Proof.
  unfold exec. rewrite legacy_handleStart_sent. simpl.
  destruct (startable s); simpl; [| tauto].
  intros [H | []]. injection H as <-. auto.
Qed.

Lemma current_submitted_request b (s : State Current.OutputFormat) req :
  In (optimize_batch req) (sent (exec (Current.handleStart b) s)) ->
  startable s = true /\ req = Current.request s.
Proof.
  unfold exec. rewrite current_handleStart_sent. simpl.
  destruct (startable s); simpl; [| tauto].
  intros [H | [H | []]]; [discriminate |]. injection H as <-. auto.
Qed.

Lemma legacy_started_submits b (s : State Legacy.OutputFormat) :
  startable s = true ->
  In (optimize_batch (Legacy.request s)) (sent (exec (Legacy.handleStart b) s)).
Proof.
  intros E. unfold exec. rewrite legacy_handleStart_sent. simpl. rewrite E.
  now left.
Qed.

Lemma current_started_submits b (s : State Current.OutputFormat) :
  startable s = true ->
  In (optimize_batch (Current.request s)) (sent (exec (Current.handleStart b) s)).
Proof.
  intros E. unfold exec. rewrite current_handleStart_sent. simpl. rewrite E.
  right. now left.
Qed.

Lemma startable_true_iff {Fmt} (s : State Fmt) :
  startable s = true <->
  files s <> [] /\ (overwrite s = true \/ outputDir s <> "").
Proof.
  pose proof (startable_false_iff s) as H.
  destruct (startable s); split.
  - intros _. split.
    + intros E. assert (true = false) by (apply H; now left). discriminate.
    + destruct (overwrite s) eqn:Eo; [now left | right].
      intros E. assert (true = false) by (apply H; now right). discriminate.
  - reflexivity.
  - discriminate.
  - intros [Hf Hd]. destruct (proj1 H eq_refl) as [E | [Eo Ed]];
      [contradiction |]. destruct Hd as [Hd | Hd]; congruence.
Qed.

(** With files and a destination, the earlier revision submits exactly one
    request, the one built from the state. *)
Lemma legacy_submits_one b (s : State Legacy.OutputFormat) :
  files s <> [] -> overwrite s = true \/ outputDir s <> "" ->
  submitted (sent (exec (Legacy.handleStart b) s)) = [Legacy.request s].
Proof.
  intros Hf Hd. unfold exec. rewrite legacy_handleStart_sent. simpl.
  now rewrite (proj2 (startable_true_iff s) (conj Hf Hd)).
Qed.

(** So does the later revision. *)
Lemma current_submits_one b (s : State Current.OutputFormat) :
  files s <> [] -> overwrite s = true \/ outputDir s <> "" ->
  submitted (sent (exec (Current.handleStart b) s)) = [Current.request s].
Proof.
  intros Hf Hd. unfold exec. rewrite current_handleStart_sent. simpl.
  now rewrite (proj2 (startable_true_iff s) (conj Hf Hd)).
Qed.

End Submission.

(** ** Starting a batch *)

Section StartClaims.
Import App.

(** C4.  Starting a batch with an empty file list, or with [overwrite] off
    and an empty output directory, does nothing at all in either revision:
    the handler returns with the component state and the log of commands
    sent to the backend exactly as they were, so no request reaches the
    coordinator and no tracked file changes status. *)
Theorem handleStart_without_files_or_destination :
  (forall b (w : World Legacy.OutputFormat),
      files (ui w) = [] \/ (overwrite (ui w) = false /\ outputDir (ui w) = "") ->
      Legacy.handleStart b w = (tt, w))
  /\
  (forall b (w : World Current.OutputFormat),
      files (ui w) = [] \/ (overwrite (ui w) = false /\ outputDir (ui w) = "") ->
      Current.handleStart b w = (tt, w)).
Proof.
  split; intros b w H.
  - apply legacy_handleStart_idle. now apply startable_false_iff.
  - apply current_handleStart_idle. now apply startable_false_iff.
Qed.

Lemma handleStart_without_files_or_destination_witness :
  Legacy.handleStart Samples.accepting (mkWorld Legacy.initial [])
    = (tt, mkWorld Legacy.initial [])
  /\
  Current.handleStart Samples.accepting
    (mkWorld (Samples.current_state [Samples.photo "f1" "/img/a.png"]
                OperationMode.optimize Current.webp "" false) [])
    = (tt, mkWorld (Samples.current_state [Samples.photo "f1" "/img/a.png"]
                      OperationMode.optimize Current.webp "" false) []).
Proof.
  split.
  - apply (proj1 handleStart_without_files_or_destination). left. reflexivity.
  - apply (proj2 handleStart_without_files_or_destination). right.
    split; reflexivity.
Defined.

(** C6.  Started with files to process and [overwrite] on, either revision
    submits exactly one request, and that request carries the empty string
    as [output_dir], whatever output directory is configured; with
    [overwrite] off and an output directory set, the one request submitted
    carries that directory.  No request in the log of a run carries anything
    else. *)
Theorem overwrite_sends_empty_output_dir :
  (forall b (s : State Legacy.OutputFormat),
      files s <> [] -> overwrite s = true ->
      exists req,
        submitted (sent (exec (Legacy.handleStart b) s)) = [req]
        /\ Request.output_dir req = ""
        /\ Request.overwrite req = true)
  /\
  (forall b (s : State Current.OutputFormat),
      files s <> [] -> overwrite s = true ->
      exists req,
        submitted (sent (exec (Current.handleStart b) s)) = [req]
        /\ Request.output_dir req = ""
        /\ Request.overwrite req = true)
  /\
  (forall b (s : State Legacy.OutputFormat),
      files s <> [] -> overwrite s = false -> outputDir s <> "" ->
      exists req,
        submitted (sent (exec (Legacy.handleStart b) s)) = [req]
        /\ Request.output_dir req = outputDir s
        /\ Request.overwrite req = false)
  /\
  (forall b (s : State Current.OutputFormat),
      files s <> [] -> overwrite s = false -> outputDir s <> "" ->
      exists req,
        submitted (sent (exec (Current.handleStart b) s)) = [req]
        /\ Request.output_dir req = outputDir s
        /\ Request.overwrite req = false)
  /\
  (forall b (s : State Legacy.OutputFormat) req,
      In (optimize_batch req) (sent (exec (Legacy.handleStart b) s)) ->
      (overwrite s = true -> Request.output_dir req = "")
      /\ (overwrite s = false -> Request.output_dir req = outputDir s))
  /\
  (forall b (s : State Current.OutputFormat) req,
      In (optimize_batch req) (sent (exec (Current.handleStart b) s)) ->
      (overwrite s = true -> Request.output_dir req = "")
      /\ (overwrite s = false -> Request.output_dir req = outputDir s)).
Proof.
  split; [| split; [| split; [| split; [| split]]]].
  - intros b s Hf Ho. exists (Legacy.request s).
    split; [apply legacy_submits_one; auto |]. simpl. now rewrite Ho.
  - intros b s Hf Ho. exists (Current.request s).
    split; [apply current_submits_one; auto |]. simpl. now rewrite Ho.
  - intros b s Hf Ho Hd. exists (Legacy.request s).
    split; [apply legacy_submits_one; auto |]. simpl. now rewrite Ho.
  - intros b s Hf Ho Hd. exists (Current.request s).
    split; [apply current_submits_one; auto |]. simpl. now rewrite Ho.
  - intros b s req H. apply legacy_submitted_request in H as [_ ->]. simpl.
    split; intros ->; reflexivity.
  - intros b s req H. apply current_submitted_request in H as [_ ->]. simpl.
    split; intros ->; reflexivity.
Qed.

Lemma overwrite_sends_empty_output_dir_witness :
  (exists req,
      submitted (sent (exec (Legacy.handleStart Samples.accepting)
                         (Samples.legacy_state [Samples.photo "f1" "/img/a.png"]
                            OperationMode.optimize Legacy.webp "/out" true)))
      = [req]
      /\ Request.output_dir req = ""
      /\ Request.overwrite req = true)
  /\
  (exists req,
      submitted (sent (exec (Current.handleStart Samples.accepting)
                         (Samples.current_state [Samples.photo "f1" "/img/a.png"]
                            OperationMode.resize Current.png "/out" false)))
      = [req]
      /\ Request.output_dir req = "/out"
      /\ Request.overwrite req = false).
Proof.
  split.
  - apply (proj1 overwrite_sends_empty_output_dir Samples.accepting
             (Samples.legacy_state [Samples.photo "f1" "/img/a.png"]
                OperationMode.optimize Legacy.webp "/out" true)).
    + discriminate.
    + reflexivity.
  - apply (proj1 (proj2 (proj2 (proj2 overwrite_sends_empty_output_dir)))
             Samples.accepting
             (Samples.current_state [Samples.photo "f1" "/img/a.png"]
                OperationMode.resize Current.png "/out" false)).
    + discriminate.
    + reflexivity.
    + discriminate.
Defined.

End StartClaims.

(** ** The optional fields of the request *)

Section RequestClaims.
Import App.

#[local] Ltac by_cases_on s :=
  destruct (operationMode s), (outputFormat s); simpl;
  repeat split; intros; intuition (try discriminate; try congruence).

(** C5 (as amended).  The [format] field of the submitted request is the
    selected output format exactly when the operation mode is [convert]; for
    every other mode, [all] included, the field is absent.  Started with
    files to process and a destination, either revision does submit exactly
    one such request. *)
Theorem format_sent_only_in_convert_mode :
  (forall b (s : State Legacy.OutputFormat) req,
      In (optimize_batch req) (sent (exec (Legacy.handleStart b) s)) ->
      (operationMode s = OperationMode.convert ->
       Request.format req = Some (outputFormat s))
      /\ (operationMode s <> OperationMode.convert -> Request.format req = None))
  /\
  (forall b (s : State Current.OutputFormat) req,
      In (optimize_batch req) (sent (exec (Current.handleStart b) s)) ->
      (operationMode s = OperationMode.convert ->
       Request.format req = Some (outputFormat s))
      /\ (operationMode s <> OperationMode.convert -> Request.format req = None))
  /\
  (forall b (s : State Legacy.OutputFormat),
      files s <> [] -> overwrite s = true \/ outputDir s <> "" ->
      exists req,
        submitted (sent (exec (Legacy.handleStart b) s)) = [req]
        /\ (operationMode s = OperationMode.convert ->
            Request.format req = Some (outputFormat s))
        /\ (operationMode s <> OperationMode.convert -> Request.format req = None))
  /\
  (forall b (s : State Current.OutputFormat),
      files s <> [] -> overwrite s = true \/ outputDir s <> "" ->
      exists req,
        submitted (sent (exec (Current.handleStart b) s)) = [req]
        /\ (operationMode s = OperationMode.convert ->
            Request.format req = Some (outputFormat s))
        /\ (operationMode s <> OperationMode.convert -> Request.format req = None)).
Proof.
  split; [| split; [| split]].
  - intros b s req H. apply legacy_submitted_request in H as [_ ->]. simpl.
    destruct (operationMode s); simpl; split; intros; congruence.
  - intros b s req H. apply current_submitted_request in H as [_ ->]. simpl.
    destruct (operationMode s); simpl; split; intros; congruence.
  - intros b s Hf Hd. exists (Legacy.request s).
    split; [now apply legacy_submits_one |]. simpl.
    destruct (operationMode s); simpl; split; intros; congruence.
  - intros b s Hf Hd. exists (Current.request s).
    split; [now apply current_submits_one |]. simpl.
    destruct (operationMode s); simpl; split; intros; congruence.
Qed.

Lemma format_sent_only_in_convert_mode_witness :
  (exists req,
      submitted (sent (exec (Legacy.handleStart Samples.accepting)
                         (Samples.legacy_state [Samples.photo "f1" "/img/a.png"]
                            OperationMode.convert Legacy.qoi "/out" false)))
      = [req]
      /\ Request.format req = Some Legacy.qoi)
  /\
  (exists req,
      submitted (sent (exec (Current.handleStart Samples.accepting)
                         (Samples.current_state [Samples.photo "f1" "/img/a.png"]
                            OperationMode.optimize_resize Current.jpeg "" true)))
      = [req]
      /\ Request.format req = None).
Proof.
  split.
  - destruct (proj1 (proj2 (proj2 format_sent_only_in_convert_mode))
                Samples.accepting
                (Samples.legacy_state [Samples.photo "f1" "/img/a.png"]
                   OperationMode.convert Legacy.qoi "/out" false))
      as (req & Hreq & Hconvert & _).
    + discriminate.
    + right. discriminate.
    + exists req. split; [exact Hreq |]. apply Hconvert. reflexivity.
  - destruct (proj2 (proj2 (proj2 format_sent_only_in_convert_mode))
                Samples.accepting
                (Samples.current_state [Samples.photo "f1" "/img/a.png"]
                   OperationMode.optimize_resize Current.jpeg "" true))
      as (req & Hreq & _ & Hother).
    + discriminate.
    + left. reflexivity.
    + exists req. split; [exact Hreq |]. apply Hother. simpl. discriminate.
Defined.

(** C5 as stated fails: in mode [all], which the mode table lists as
    including a format change, both revisions submit a request without a
    [format] field. *)
Lemma format_absent_in_all_mode :
  (exists req,
      In (optimize_batch req)
         (sent (exec (Legacy.handleStart Samples.accepting)
                     (Samples.legacy_state [Samples.photo "f1" "/img/a.png"]
                        OperationMode.all Legacy.png "" true)))
      /\ OperationMode.includes_conversion OperationMode.all = true
      /\ Request.format req <> Some Legacy.png)
  /\
  (exists req,
      In (optimize_batch req)
         (sent (exec (Current.handleStart Samples.accepting)
                     (Samples.current_state [Samples.photo "f1" "/img/a.png"]
                        OperationMode.all Current.png "" true)))
      /\ OperationMode.includes_conversion OperationMode.all = true
      /\ Request.format req <> Some Current.png).
Proof.
  split.
  - eexists. split; [vm_compute; left; reflexivity |].
    split; [reflexivity | discriminate].
  - eexists. split; [vm_compute; right; left; reflexivity |].
    split; [reflexivity | discriminate].
Qed.

(** C7.  Started with files to process and a destination, either revision
    submits exactly one request, and in it the [quality] field is present
    exactly when the operation mode recompresses ([optimize],
    [optimize_resize] or [all]) and the selected output format is one of
    webp, png, jpeg; when present it is the selected quality; and it is
    absent whenever the selected format is tiff, qoi or bmp.  The same holds
    of every request found in the log of a run. *)
Theorem quality_sent_for_lossy_recompression :
  (forall b (s : State Legacy.OutputFormat),
      files s <> [] -> overwrite s = true \/ outputDir s <> "" ->
      exists req,
        submitted (sent (exec (Legacy.handleStart b) s)) = [req]
        /\ (Request.quality req <> None <->
            In (OperationMode.tag (operationMode s)) ["optimize"; "optimize_resize"; "all"]
            /\ In (Legacy.format_tag (outputFormat s)) ["webp"; "png"; "jpeg"])
        /\ (Request.quality req <> None -> Request.quality req = Some (quality s))
        /\ (In (Legacy.format_tag (outputFormat s)) ["tiff"; "qoi"; "bmp"] ->
            Request.quality req = None))
  /\
  (forall b (s : State Current.OutputFormat),
      files s <> [] -> overwrite s = true \/ outputDir s <> "" ->
      exists req,
        submitted (sent (exec (Current.handleStart b) s)) = [req]
        /\ (Request.quality req <> None <->
            In (OperationMode.tag (operationMode s)) ["optimize"; "optimize_resize"; "all"]
            /\ In (Current.format_tag (outputFormat s)) ["webp"; "png"; "jpeg"])
        /\ (Request.quality req <> None -> Request.quality req = Some (quality s))
        /\ (In (Current.format_tag (outputFormat s)) ["tiff"; "qoi"; "bmp"] ->
            Request.quality req = None))
  /\
  (forall b (s : State Legacy.OutputFormat) req,
      In (optimize_batch req) (sent (exec (Legacy.handleStart b) s)) ->
      (Request.quality req <> None <->
       In (OperationMode.tag (operationMode s)) ["optimize"; "optimize_resize"; "all"]
       /\ In (Legacy.format_tag (outputFormat s)) ["webp"; "png"; "jpeg"])
      /\ (Request.quality req <> None -> Request.quality req = Some (quality s))
      /\ (In (Legacy.format_tag (outputFormat s)) ["tiff"; "qoi"; "bmp"] ->
          Request.quality req = None))
  /\
  (forall b (s : State Current.OutputFormat) req,
      In (optimize_batch req) (sent (exec (Current.handleStart b) s)) ->
      (Request.quality req <> None <->
       In (OperationMode.tag (operationMode s)) ["optimize"; "optimize_resize"; "all"]
       /\ In (Current.format_tag (outputFormat s)) ["webp"; "png"; "jpeg"])
      /\ (Request.quality req <> None -> Request.quality req = Some (quality s))
      /\ (In (Current.format_tag (outputFormat s)) ["tiff"; "qoi"; "bmp"] ->
          Request.quality req = None)).
Proof.
  split; [| split; [| split]].
  - intros b s Hf Hd. exists (Legacy.request s).
    split; [now apply legacy_submits_one |]. simpl. by_cases_on s.
  - intros b s Hf Hd. exists (Current.request s).
    split; [now apply current_submits_one |]. simpl. by_cases_on s.
  - intros b s req H. apply legacy_submitted_request in H as [_ ->]. simpl.
    by_cases_on s.
  - intros b s req H. apply current_submitted_request in H as [_ ->]. simpl.
    by_cases_on s.
Qed.

Lemma quality_sent_for_lossy_recompression_witness :
  (exists req,
      submitted (sent (exec (Legacy.handleStart Samples.accepting)
                         (Samples.legacy_state [Samples.photo "f1" "/img/a.png"]
                            OperationMode.optimize Legacy.tiff "" true)))
      = [req]
      /\ Request.quality req = None)
  /\
  (exists req,
      submitted (sent (exec (Current.handleStart Samples.accepting)
                         (Samples.current_state [Samples.photo "f1" "/img/a.png"]
                            OperationMode.all Current.jpeg "" true)))
      = [req]
      /\ Request.quality req <> None).
Proof.
  split.
  - destruct (proj1 quality_sent_for_lossy_recompression Samples.accepting
                (Samples.legacy_state [Samples.photo "f1" "/img/a.png"]
                   OperationMode.optimize Legacy.tiff "" true))
      as (req & Hreq & _ & _ & Hnone).
    + discriminate.
    + left. reflexivity.
    + exists req. split; [exact Hreq |]. apply Hnone. simpl. left. reflexivity.
  - destruct (proj1 (proj2 quality_sent_for_lossy_recompression) Samples.accepting
                (Samples.current_state [Samples.photo "f1" "/img/a.png"]
                   OperationMode.all Current.jpeg "" true))
      as (req & Hreq & Hiff & _).
    + discriminate.
    + left. reflexivity.
    + exists req. split; [exact Hreq |]. apply Hiff.
      simpl. split; right; right; left; reflexivity.
Defined.

End RequestClaims.

(** ** Backup and cancellation plumbing *)

Section ControlClaims.
Import App.

(** The later revision asks for a backup exactly when it overwrites. *)
Lemma current_create_backup_follows_overwrite b (s : State Current.OutputFormat) req :
  In (optimize_batch req) (sent (exec (Current.handleStart b) s)) ->
  Request.create_backup req = Some (overwrite s)
  /\ Request.overwrite req = overwrite s.
Proof.
  intros H. apply current_submitted_request in H as [_ ->]. split; reflexivity.
Qed.

(** The earlier revision never sets the flag. *)
Lemma legacy_never_sets_create_backup b (s : State Legacy.OutputFormat) req :
  In (optimize_batch req) (sent (exec (Legacy.handleStart b) s)) ->
  Request.create_backup req = None.
Proof.
  intros H. apply legacy_submitted_request in H as [_ ->]. reflexivity.
Qed.

(** C8.  The earlier revision, started in its initial settings ([overwrite]
    on) with one tracked file, submits a request that overwrites the original
    and carries no [create_backup] field at all, whereas the later revision
    started on the same input sends [create_backup = true]. *)
Theorem legacy_overwrites_without_backup_flag :
  (exists req,
      submitted (sent (exec (Legacy.handleStart Samples.accepting)
                  (Samples.legacy_state [Samples.photo "f1" "/img/a.png"]
                     OperationMode.optimize Legacy.webp "" true))) = [req]
      /\ Request.overwrite req = true
      /\ Request.create_backup req = None)
  /\
  (exists req,
      submitted (sent (exec (Current.handleStart Samples.accepting)
                  (Samples.current_state [Samples.photo "f1" "/img/a.png"]
                     OperationMode.optimize Current.webp "" true))) = [req]
      /\ Request.overwrite req = true
      /\ Request.create_backup req = Some true).
Proof.
  split; eexists; (split; [vm_compute; reflexivity | split; reflexivity]).
Qed.

(** The later revision sends the reset before the batch, and nothing else. *)
Lemma current_resets_before_submitting b (s : State Current.OutputFormat) :
  startable s = true ->
  sent (exec (Current.handleStart b) s)
  = [reset_cancel_flag; optimize_batch (Current.request s)].
Proof.
  intros E. unfold exec. rewrite current_handleStart_sent. simpl. now rewrite E.
Qed.

(** The later revision's cancel handler sends [cancel_batch]. *)
Lemma current_cancel_reaches_backend b (w : World Current.OutputFormat) :
  sent (snd (Current.handleCancel b w)) = sent w ++ [cancel_batch].
Proof.
  unfold Current.handleCancel. cbn. destruct (on_cancel_batch b); reflexivity.
Qed.

(** The earlier revision's cancel handler only clears [isProcessing]. *)
Lemma legacy_cancel_stays_in_ui (w : World Legacy.OutputFormat) :
  sent (snd (Legacy.handleCancel w)) = sent w
  /\ isProcessing (ui (snd (Legacy.handleCancel w))) = false.
Proof. split; reflexivity. Qed.

(** C9.  In the earlier revision a batch run sends the batch request alone,
    with no reset of the cancellation flag before it, and a cancel issued
    while the batch is processing sends nothing to the backend: it only
    clears the processing flag of the UI.  The later revision, on the same
    input, sends [reset_cancel_flag] before [optimize_batch] and
    [cancel_batch] on cancel. *)
Theorem legacy_cancel_never_reaches_backend :
  let ls := Samples.legacy_state [Samples.photo "f1" "/img/a.png"]
              OperationMode.optimize Legacy.webp "" true in
  let cs := Samples.current_state [Samples.photo "f1" "/img/a.png"]
              OperationMode.optimize Current.webp "" true in
  let processing (Fmt : Type) (s : State Fmt) :=
      mkWorld (ui (snd (setIsProcessing true (mkWorld s [])))) [] in
  (sent (exec (Legacy.handleStart Samples.accepting) ls)
     = [optimize_batch (Legacy.request ls)]
   /\ sent (snd (Legacy.handleCancel (processing _ ls))) = []
   /\ isProcessing (ui (snd (Legacy.handleCancel (processing _ ls)))) = false)
  /\
  (sent (exec (Current.handleStart Samples.accepting) cs)
     = [reset_cancel_flag; optimize_batch (Current.request cs)]
   /\ sent (snd (Current.handleCancel Samples.accepting (processing _ cs)))
     = [cancel_batch]).
Proof.
  cbv zeta. repeat split; vm_compute; reflexivity.
Qed.

End ControlClaims.

(** ** A rejected batch *)

Section RejectionClaims.
Import App.

Lemma mark_failed_after_pending error (fs : list TrackedFile.t) :
  map (mark_failed error) (map mark_pending fs) = map (mark_failed error) fs.
Proof. rewrite map_map. apply map_ext. intros f. reflexivity. Qed.


Lemma startable_guards {Fmt} (s : State Fmt) :
  startable s = true ->
  (Js.length (files s) =? 0)%Z = false
  /\ negb (overwrite s) && negb (Js.truthy_str (outputDir s)) = false.
Proof.
  unfold startable. intros E. apply andb_true_iff in E as [E1 E2].
  now apply negb_true_iff in E1, E2.
Qed.



End RejectionClaims.

(** ** Adding files *)

Section AddingFiles.
Import App.
Context {Fmt : Type}.

Lemma existingPaths_spec (prev : list TrackedFile.t) (p : string) :
  p ∈ existingPaths prev <-> In p (map TrackedFile.path prev).
Proof.
  unfold existingPaths. rewrite elem_of_list_to_set. apply list_elem_of_In.
Qed.

(** A new file is kept exactly when no tracked file has its path. *)
Lemma uniqueNewFiles_In (prev newFiles : list TrackedFile.t) (f : TrackedFile.t) :
  In f (uniqueNewFiles prev newFiles) <->
  In f newFiles /\ ~ In (TrackedFile.path f) (map TrackedFile.path prev).
Proof.
  unfold uniqueNewFiles. rewrite filter_In, negb_true_iff, bool_decide_eq_false.
  now rewrite existingPaths_spec.
Qed.

(** With nothing tracked yet, every new file is kept, repeated or not. *)
Lemma uniqueNewFiles_nil (newFiles : list TrackedFile.t) :
  uniqueNewFiles [] newFiles = newFiles.
Proof.
  unfold uniqueNewFiles. induction newFiles as [|f fs IH]; simpl; [reflexivity |].
  rewrite bool_decide_eq_false_2.
  - simpl. now f_equal.
  - rewrite existingPaths_spec. simpl. tauto.
Qed.

Lemma defaultOutputDir_files (seen : Closure) (newFiles : list TrackedFile.t)
    (w : World Fmt) :
  files (ui (snd (defaultOutputDir seen newFiles w))) = files (ui w)
  /\ sent (snd (defaultOutputDir seen newFiles w)) = sent w.
Proof.
  unfold defaultOutputDir. destruct newFiles as [|f fs]; [split; reflexivity |].
  destruct (_ && _); [| split; reflexivity].
  destruct (negb _); split; reflexivity.
Qed.

Lemma appendFiles_files (newFiles : list TrackedFile.t) (w : World Fmt) :
  files (ui (snd (appendFiles newFiles w)))
  = files (ui w) ++ uniqueNewFiles (files (ui w)) newFiles
  /\ sent (snd (appendFiles newFiles w)) = sent w.
Proof.
  unfold appendFiles, bind.
  destruct (_ && _); [destruct (0 <? _)%Z |]; split; reflexivity.
Qed.

(** The handler appends the kept files, in the order they came in, after the
    tracked ones, and sends nothing. *)
Lemma handleFilesAddedWith_files (seen : Closure) (newFiles : list TrackedFile.t)
    (w : World Fmt) :
  files (ui (snd (handleFilesAddedWith seen newFiles w)))
  = files (ui w) ++ uniqueNewFiles (files (ui w)) newFiles
  /\ sent (snd (handleFilesAddedWith seen newFiles w)) = sent w.
Proof.
  unfold handleFilesAddedWith, bind.
  destruct (defaultOutputDir_files seen newFiles w) as [Hf Hs].
  destruct (defaultOutputDir seen newFiles w) as [[] w1]. simpl in Hf, Hs.
  rewrite <- Hf, <- Hs. apply appendFiles_files.
Qed.

Lemma handleFilesAdded_files (newFiles : list TrackedFile.t) (w : World Fmt) :
  files (ui (snd (handleFilesAdded newFiles w)))
  = files (ui w) ++ uniqueNewFiles (files (ui w)) newFiles
  /\ sent (snd (handleFilesAdded newFiles w)) = sent w.
Proof. apply handleFilesAddedWith_files. Qed.

(** No tracked path is added a second time, and the paths stay distinct as
    long as one addition does not itself repeat a path. *)
Lemma handleFilesAdded_keeps_paths_distinct (newFiles : list TrackedFile.t) (w : World Fmt) :
  List.NoDup (map TrackedFile.path (files (ui w))) ->
  List.NoDup (map TrackedFile.path newFiles) ->
  List.NoDup (map TrackedFile.path (files (ui (snd (handleFilesAdded newFiles w))))).
Proof.
  rewrite <- !NoDup_ListNoDup. intros Hprev Hnew.
  rewrite (proj1 (handleFilesAdded_files newFiles w)).
  set (prev := files (ui w)) in *. clearbody prev.
  rewrite map_app. apply NoDup_app. split; [exact Hprev |]. split.
  - intros p Hp Hq. apply list_elem_of_In in Hp, Hq.
    apply in_map_iff in Hq as (f & <- & Hf).
    apply uniqueNewFiles_In in Hf as [_ Hf]. contradiction.
  - unfold uniqueNewFiles.
    induction newFiles as [|f fs IH]; simpl; [constructor |].
    inversion Hnew as [|? ? Hnotin Hrest]; subst.
    destruct (negb _); simpl; [| now apply IH].
    constructor; [| now apply IH].
    intros Hin. apply Hnotin. apply list_elem_of_In in Hin.
    apply list_elem_of_In.
    apply in_map_iff in Hin as (g & Hg & Hin).
    apply filter_In in Hin as [Hin _]. apply in_map_iff. eauto.
Qed.

End AddingFiles.

Section AddingFilesClaims.
Import App.

(** C3.  One addition that names the same path twice, made to an empty
    list, leaves both files tracked: the filter only looks at the paths that
    were tracked before the addition.  The batch then submitted by either
    revision lists that path twice. *)
Theorem repeated_path_in_one_addition_is_kept :
  let dropped := [Samples.photo "f1" "/img/a.png"; Samples.photo "f2" "/img/a.png"] in
  let ls := ui (exec (handleFilesAdded dropped) Legacy.initial) in
  let cs := ui (exec (handleFilesAdded dropped) Current.initial) in
  (map TrackedFile.path (files ls) = ["/img/a.png"; "/img/a.png"]
   /\ map Request.paths (submitted (sent (exec (Legacy.handleStart Samples.accepting) ls)))
      = [["/img/a.png"; "/img/a.png"]])
  /\
  (map TrackedFile.path (files cs) = ["/img/a.png"; "/img/a.png"]
   /\ map Request.paths (submitted (sent (exec (Current.handleStart Samples.accepting) cs)))
      = [["/img/a.png"; "/img/a.png"]]).
Proof.
  cbv zeta. repeat split; vm_compute; reflexivity.
Qed.

End AddingFilesClaims.

(** ** The batch report *)

Section CoordinatorFacts.
Import Coordinator.

Lemma unique_from_In (seen : gset string) (paths : list string) (p : string) :
  In p (unique_from seen paths) <-> In p paths /\ p ∉ seen.
Proof.
  revert seen. induction paths as [|q rest IH]; intros seen; simpl.
  - tauto.
  - case_bool_decide as Hq.
    + rewrite IH. split.
      * intros [H1 H2]. auto.
      * intros [[-> | H1] H2]; [contradiction | auto].
    + simpl. rewrite IH. split.
      * intros [-> | [H1 H2]]; [auto |]. split; [auto |].
        intros Hp. apply H2. now apply elem_of_union_r.
      * intros [[-> | H1] H2]; [auto |].
        destruct (decide (q = p)) as [-> | Hne]; [auto |].
        right. split; [exact H1 |].
        intros Hp. apply elem_of_union in Hp as [Hp | Hp]; [| contradiction].
        apply elem_of_singleton in Hp. congruence.
Qed.

Lemma unique_from_NoDup (seen : gset string) (paths : list string) :
  List.NoDup (unique_from seen paths).
Proof.
  revert seen. induction paths as [|q rest IH]; intros seen; simpl.
  - constructor.
  - case_bool_decide as Hq; [apply IH |].
    constructor; [| apply IH].
    rewrite unique_from_In. intros [_ Hnot]. apply Hnot.
    apply elem_of_union_l. now apply elem_of_singleton.
Qed.

Lemma unique_paths_In (paths : list string) (p : string) :
  In p (unique_paths paths) <-> In p paths.
Proof.
  unfold unique_paths. rewrite unique_from_In. split; [tauto |].
  intros H. split; [exact H | apply not_elem_of_empty].
Qed.

Lemma unique_paths_NoDup (paths : list string) : List.NoDup (unique_paths paths).
Proof. apply unique_from_NoDup. Qed.

(** The number of tasks is the number of distinct input paths. *)
Lemma unique_paths_length (paths : list string) :
  List.length (unique_paths paths) = size (list_to_set paths : gset string).
Proof.
  rewrite <- (size_list_to_set (C := gset string) (unique_paths paths))
    by apply NoDup_ListNoDup, unique_paths_NoDup.
  f_equal. apply set_eq. intros p.
  rewrite !elem_of_list_to_set, !list_elem_of_In. apply unique_paths_In.
Qed.

Lemma tasks_inputs {Fmt} (req : Request.t Fmt) :
  map input (tasks req) = unique_paths (Request.paths req).
Proof. unfold tasks. rewrite map_map. simpl. apply map_id. Qed.

Lemma file_result_path {Fmt} (t : FileTask Fmt) (o : Outcome) :
  FileResult.path (file_result t o) = input t.
Proof. destruct o; reflexivity. Qed.

Lemma file_result_settled {Fmt} (t : FileTask Fmt) (o : Outcome) :
  settled (file_result t o).
Proof. destruct o; [left | right]; reflexivity. Qed.

Section Dispatch.
Context {Fmt : Type}.
Variable pipeline : FileTask Fmt -> Outcome.
Variable cancelled : nat -> bool.

(** The report paths are the inputs of an initial segment of the tasks. *)
Lemma dispatch_prefix (k : nat) (ts : list (FileTask Fmt)) :
  exists skipped,
    map input ts = map FileResult.path (dispatch pipeline cancelled k ts) ++ skipped.
Proof.
  revert k. induction ts as [|t rest IH]; intros k; simpl.
  - exists []. reflexivity.
  - destruct (cancelled k); simpl.
    + eexists. reflexivity.
    + destruct (IH (S k)) as [skipped Hs]. exists skipped.
      rewrite file_result_path. now f_equal.
Qed.

(** If the flag is never found set, every task is dispatched. *)
Lemma dispatch_complete (k : nat) (ts : list (FileTask Fmt)) :
  (forall i, (i < List.length ts)%nat -> cancelled (k + i) = false) ->
  map FileResult.path (dispatch pipeline cancelled k ts) = map input ts.
Proof.
  revert k. induction ts as [|t rest IH]; intros k H; simpl; [reflexivity |].
  pose proof (H 0%nat) as H0. rewrite Nat.add_0_r in H0.
  rewrite H0 by (simpl; lia). simpl. rewrite file_result_path. f_equal.
  apply IH. intros i Hi. replace (S k + i)%nat with (k + S i)%nat by lia.
  apply H. simpl. lia.
Qed.

Lemma dispatch_settled (k : nat) (ts : list (FileTask Fmt)) :
  Forall settled (dispatch pipeline cancelled k ts).
Proof.
  revert k. induction ts as [|t rest IH]; intros k; simpl; [constructor |].
  destruct (cancelled k); constructor; [apply file_result_settled | apply IH].
Qed.

End Dispatch.

(** The aggregator keeps the results in order, counts them, and splits the
    count between the two statuses. *)
Lemma aggregate_from (rs : list FileResult.t) (acc : BatchResult.t) :
  BatchResult.results (fold_left record_result rs acc) = BatchResult.results acc ++ rs
  /\ BatchResult.total (fold_left record_result rs acc)
     = (BatchResult.total acc + Js.length rs)%Z
  /\ (Forall settled rs ->
      (BatchResult.success_count (fold_left record_result rs acc)
       + BatchResult.failed_count (fold_left record_result rs acc)
       = BatchResult.success_count acc + BatchResult.failed_count acc + Js.length rs)%Z).
Proof.
  revert acc. unfold Js.length.
  induction rs as [|r rest IH]; intros acc; simpl fold_left.
  - rewrite app_nil_r. simpl. repeat split; intros; lia.
  - destruct (IH (record_result acc r)) as (H1 & H2 & H3).
    rewrite H1, H2. simpl BatchResult.results. simpl BatchResult.total.
    rewrite <- app_assoc. simpl List.length.
    split; [reflexivity |]. split; [lia |].
    intros Hall. inversion Hall as [|? ? Hr Hrest]; subst.
    rewrite (H3 Hrest). simpl.
    destruct Hr as [Hr | Hr]; rewrite Hr; simpl; lia.
Qed.

Lemma aggregate_report (rs : list FileResult.t) :
  BatchResult.results (aggregate rs) = rs
  /\ BatchResult.total (aggregate rs) = Js.length rs
  /\ (Forall settled rs ->
      BatchResult.total (aggregate rs)
      = (BatchResult.success_count (aggregate rs)
         + BatchResult.failed_count (aggregate rs))%Z).
Proof.
  unfold aggregate. destruct (aggregate_from rs empty_report) as (H1 & H2 & H3).
  rewrite H1, H2. simpl. split; [reflexivity |]. split; [lia |].
  intros Hall. rewrite (H3 Hall). simpl. lia.
Qed.

End CoordinatorFacts.

Section CoordinatorClaims.
Import Coordinator.

(** C1 (as amended).  For every valid request, [run] returns a report in
    which [total] equals [success_count + failed_count] and the length of
    [results], no path occurs twice among the results, and every result path
    is an input path.  When, in addition, the cancellation flag is not found
    set before any of the dispatches, [total] is the number of distinct input
    paths and every input path occurs exactly once among the results,
    whatever the order in which the tasks complete. *)
Theorem run_report_is_consistent :
  forall (Fmt : Type) (pipeline : FileTask Fmt -> Outcome) (cancelled : nat -> bool)
         (completion : list FileResult.t -> list FileResult.t) (req : Request.t Fmt),
    (forall rs, Permutation (completion rs) rs) ->
    validate req = None ->
    exists report,
      run pipeline cancelled completion req = inr report
      /\ BatchResult.total report
         = (BatchResult.success_count report + BatchResult.failed_count report)%Z
      /\ BatchResult.total report = Js.length (BatchResult.results report)
      /\ List.NoDup (map FileResult.path (BatchResult.results report))
      /\ (forall p, In p (map FileResult.path (BatchResult.results report)) ->
                    In p (Request.paths req))
      /\ ((forall k, (k < size (list_to_set (Request.paths req) : gset string))%nat ->
                     cancelled k = false) ->
          BatchResult.total report
          = Z.of_nat (size (list_to_set (Request.paths req) : gset string))
          /\ forall p, In p (Request.paths req) ->
               count_occ string_dec
                 (map FileResult.path (BatchResult.results report)) p = 1%nat).
Proof.
  intros Fmt pipeline cancelled completion req Hperm Hvalid.
  unfold run. rewrite Hvalid. eexists. split; [reflexivity |].
  set (rs := dispatch pipeline cancelled 0 (tasks req)).
  destruct (aggregate_report (completion rs)) as (Hres & Htotal & Hsplit).
  rewrite Hres, Htotal.
  assert (Hpaths : Permutation (map FileResult.path (completion rs))
                               (map FileResult.path rs))
    by (apply Permutation_map, Hperm).
  destruct (dispatch_prefix pipeline cancelled 0 (tasks req)) as [skipped Hskip].
  fold rs in Hskip. rewrite tasks_inputs in Hskip.
  assert (Hnodup : List.NoDup (map FileResult.path rs)).
  { pose proof (unique_paths_NoDup (Request.paths req)) as Hu.
    rewrite Hskip in Hu. now apply NoDup_app_remove_r in Hu. }
  split; [| split; [reflexivity |]; split; [| split]].
  - rewrite <- Htotal. apply Hsplit.
    eapply Permutation_Forall; [symmetry; apply Hperm |].
    apply dispatch_settled.
  - eapply Permutation_NoDup; [symmetry; exact Hpaths | exact Hnodup].
  - intros p Hp. apply (Permutation_in _ Hpaths) in Hp.
    apply unique_paths_In. rewrite Hskip. apply in_or_app. now left.
  - intros Hrun. rewrite <- unique_paths_length in *.
    assert (Hall : map FileResult.path rs = unique_paths (Request.paths req)).
    { subst rs. rewrite dispatch_complete; [apply tasks_inputs |].
      intros i Hi. apply Hrun.
      now rewrite <- tasks_inputs, length_map. }
    split.
    + unfold Js.length. f_equal.
      rewrite (Permutation_length (Hperm rs)).
      now rewrite <- Hall, length_map.
    + intros p Hp. apply NoDup_count_occ'.
      * eapply Permutation_NoDup; [symmetry; exact Hpaths | exact Hnodup].
      * apply (Permutation_in _ (Permutation_sym Hpaths)).
        rewrite Hall. now apply unique_paths_In.
Qed.

Lemma run_report_is_consistent_witness :
  exists report,
    run Samples.always_written Samples.never_cancelled Samples.reversed
        Samples.three_paths = inr report
    /\ BatchResult.total report
       = (BatchResult.success_count report + BatchResult.failed_count report)%Z
    /\ BatchResult.total report = Js.length (BatchResult.results report)
    /\ List.NoDup (map FileResult.path (BatchResult.results report))
    /\ (forall p, In p (map FileResult.path (BatchResult.results report)) ->
                  In p (Request.paths Samples.three_paths))
    /\ ((forall k,
           (k < size (list_to_set (Request.paths Samples.three_paths) : gset string))%nat ->
           Samples.never_cancelled k = false) ->
        BatchResult.total report
        = Z.of_nat (size (list_to_set (Request.paths Samples.three_paths) : gset string))
        /\ forall p, In p (Request.paths Samples.three_paths) ->
             count_occ string_dec
               (map FileResult.path (BatchResult.results report)) p = 1%nat).
Proof.
  apply (run_report_is_consistent Current.OutputFormat Samples.always_written
           Samples.never_cancelled Samples.reversed Samples.three_paths).
  - intros rs. unfold Samples.reversed. symmetry. apply Permutation_rev.
  - reflexivity.
Defined.

(** C1 as stated fails once a cancellation is observed: with three input
    paths, two of them distinct, and the flag found set before the second
    dispatch, the request is valid and the report has [total = 1] although
    there are two distinct input paths, one of which is in no result. *)
Lemma cancelled_run_reports_fewer_paths :
  validate Samples.three_paths = None
  /\ size (list_to_set (Request.paths Samples.three_paths) : gset string) = 2%nat
  /\ exists report,
      run Samples.always_written (Samples.cancel_from 1) Samples.in_order
          Samples.three_paths = inr report
      /\ BatchResult.total report = 1%Z
      /\ count_occ string_dec
           (map FileResult.path (BatchResult.results report)) "/img/b.png" = 0%nat.
Proof.
  split; [reflexivity |]. split; [vm_compute; reflexivity |].
  eexists. split; [vm_compute; reflexivity |]. split; reflexivity.
Qed.

End CoordinatorClaims.

(** ** The resize operator *)

Section ResizeFacts.
Import ResizeOperator.
#[local] Open Scope Q_scope.














End ResizeFacts.

Section ResizeClaims.
Import ResizeOperator.




End ResizeClaims.

(** ** Strings: last index, segments, lower case *)

Section StringFacts.
Import JsString.

Lemma lastIndexOf_from_app (c : ascii) (a b : string) (i found : Z) :
  Js.lastIndexOf_from c (a ++ b)%string i found
  = Js.lastIndexOf_from c b (i + Z.of_nat (String.length a))%Z
                        (Js.lastIndexOf_from c a i found).
Proof.
  revert i found. induction a as [|x a IH]; intros i found; simpl.
  - now rewrite Z.add_0_r.
  - rewrite IH. f_equal. lia.
Qed.

Lemma lastIndexOf_from_absent (c : ascii) (s : string) (i found : Z) :
  occurs c s = false -> Js.lastIndexOf_from c s i found = found.
Proof.
  revert i found. induction s as [|x s IH]; intros i found H; simpl in *.
  - reflexivity.
  - apply orb_false_iff in H as [Hx Hs]. rewrite Hx. now apply IH.
Qed.

(** The result is the seed or an index inside the scanned part. *)
Lemma lastIndexOf_from_range (c : ascii) (s : string) (i found : Z) :
  Js.lastIndexOf_from c s i found = found
  \/ (i <= Js.lastIndexOf_from c s i found < i + Z.of_nat (String.length s))%Z.
Proof.
  revert i found. induction s as [|x s IH]; intros i found; simpl String.length.
  - left. reflexivity.
  - simpl Js.lastIndexOf_from.
    destruct (IH (i + 1)%Z (if Ascii.eqb x c then i else found)) as [E | E].
    + rewrite E. destruct (Ascii.eqb x c); [right; lia | now left].
    + right. lia.
Qed.

Lemma lastIndexOf_bound (c : ascii) (s : string) :
  (-1 <= Js.lastIndexOf c s < Z.of_nat (String.length s))%Z.
Proof.
  unfold Js.lastIndexOf.
  destruct (lastIndexOf_from_range c s 0 (-1)) as [E | E]; lia.
Qed.

(** The last occurrence: nothing of the character after it. *)
Lemma lastIndexOf_last (c : ascii) (a b : string) :
  occurs c b = false ->
  Js.lastIndexOf c (a ++ String c b)%string = Z.of_nat (String.length a).
Proof.
  intros H. unfold Js.lastIndexOf. rewrite lastIndexOf_from_app. simpl.
  rewrite Ascii.eqb_refl. now rewrite lastIndexOf_from_absent.
Qed.

Lemma lastIndexOf_before (c x : ascii) (a b : string) :
  Ascii.eqb x c = false -> occurs c b = false ->
  Js.lastIndexOf c (a ++ String x b)%string = Js.lastIndexOf c a.
Proof.
  intros Hx H. unfold Js.lastIndexOf. rewrite lastIndexOf_from_app. simpl.
  rewrite Hx. now rewrite lastIndexOf_from_absent.
Qed.

Lemma substring0_prefix (a b : string) :
  Js.substring0 (Z.of_nat (String.length a)) (a ++ b)%string = a.
Proof.
  unfold Js.substring0. rewrite Nat2Z.id.
  induction a as [|x a IH]; simpl.
  - destruct b; reflexivity.
  - now rewrite IH.
Qed.

Lemma drop_prefix (a b : string) :
  drop (String.length a) (a ++ b)%string = b.
Proof. induction a as [|x a IH]; simpl; auto. Qed.

Lemma drop_length (n : nat) (s : string) :
  String.length (drop n s) = (String.length s - n)%nat.
Proof.
  revert s. induction n as [|n IH]; intros s; simpl.
  - lia.
  - destruct s as [|x s]; simpl; [reflexivity | apply IH].
Qed.

Lemma string_length_append (a b : string) :
  String.length (a ++ b)%string = (String.length a + String.length b)%nat.
Proof. induction a as [|x a IH]; simpl; auto. Qed.

Lemma toLowerCase_length (s : string) :
  String.length (toLowerCase s) = String.length s.
Proof. induction s as [|x s IH]; simpl; auto. Qed.

Lemma toLowerCase_app (a b : string) :
  toLowerCase (a ++ b)%string = (toLowerCase a ++ toLowerCase b)%string.
Proof. induction a as [|x a IH]; simpl; [reflexivity | now rewrite IH]. Qed.

(** A separator ends the directory part; the other separator, if it occurs
    at all, occurs earlier. *)
Lemma lastSlashIndex_split (dir name : string) (sep : ascii) :
  is_separator sep = true ->
  occurs "/"%char name = false -> occurs "\"%char name = false ->
  App.lastSlashIndex (dir ++ String sep name)%string = Z.of_nat (String.length dir).
Proof.
  intros Hsep H1 H2. unfold App.lastSlashIndex, is_separator in *.
  apply orb_true_iff in Hsep as [E | E]; apply Ascii.eqb_eq in E; subst sep.
  - rewrite (lastIndexOf_last "/"%char) by assumption.
    rewrite (lastIndexOf_before "\"%char "/"%char) by (reflexivity || assumption).
    pose proof (lastIndexOf_bound "\"%char dir). lia.
  - rewrite (lastIndexOf_last "\"%char) by assumption.
    rewrite (lastIndexOf_before "/"%char "\"%char) by (reflexivity || assumption).
    pose proof (lastIndexOf_bound "/"%char dir). lia.
Qed.

Lemma lastSlashIndex_none (p : string) :
  occurs "/"%char p = false -> occurs "\"%char p = false ->
  App.lastSlashIndex p = (-1)%Z.
Proof.
  intros H1 H2. unfold App.lastSlashIndex, Js.lastIndexOf.
  now rewrite !lastIndexOf_from_absent.
Qed.

Lemma split_separators_not_nil (s : string) : split_separators s <> [].
Proof.
  destruct s as [|x s]; simpl; [discriminate |].
  destruct (is_separator x); [discriminate |].
  destruct (split_separators s); discriminate.
Qed.

Lemma split_separators_plain (s : string) :
  occurs "/"%char s = false -> occurs "\"%char s = false ->
  split_separators s = [s].
Proof.
  induction s as [|x s IH]; simpl; intros H1 H2; [reflexivity |].
  apply orb_false_iff in H1 as [X1 S1]. apply orb_false_iff in H2 as [X2 S2].
  unfold is_separator. rewrite X1, X2. simpl. now rewrite IH.
Qed.

Lemma split_separators_app (a b : string) (sep : ascii) :
  is_separator sep = true ->
  exists segments,
    split_separators (a ++ String sep b)%string = segments ++ split_separators b
    /\ segments <> [].
Proof.
  intros Hsep. induction a as [|x a (segments & E & Hne)]; simpl.
  - rewrite Hsep. exists [EmptyString]. split; [reflexivity | discriminate].
  - rewrite E. destruct (is_separator x).
    + exists (EmptyString :: segments). split; [reflexivity | discriminate].
    + destruct segments as [|segment more]; [contradiction |].
      exists (String x segment :: more). split; [reflexivity | discriminate].
Qed.

Lemma last_app_not_nil {A} (l m : list A) (d : A) :
  m <> [] -> List.last (l ++ m) d = List.last m d.
Proof.
  intros Hm. induction l as [|x l IH]; simpl; [reflexivity |].
  destruct (l ++ m) eqn:E; [| exact IH].
  apply app_eq_nil in E as [_ E]. contradiction.
Qed.

Lemma pop_after_separator (dir name : string) (sep : ascii) :
  is_separator sep = true ->
  occurs "/"%char name = false -> occurs "\"%char name = false ->
  pop (split_separators (dir ++ String sep name)%string) = name.
Proof.
  intros Hsep H1 H2.
  destruct (split_separators_app dir name sep Hsep) as (segments & E & _).
  unfold pop. rewrite E, last_app_not_nil by apply split_separators_not_nil.
  now rewrite split_separators_plain.
Qed.

End StringFacts.

(** ** The drop zone's file filter and file names *)

Section DropZoneNames.
Import JsString DropZone.

Lemma short_not_supported (x : string) :
  (String.length x <= 1)%nat -> includes SUPPORTED_EXTENSIONS x = false.
Proof.
  destruct x as [|c [|d r]]; simpl; intros H.
  - reflexivity.
  - unfold includes. simpl. now destruct (Ascii.eqb c "."%char).
  - lia.
Qed.

Lemma isValidImageFile_extension (stem ext : string) :
  occurs "."%char ext = false ->
  isValidImageFile (stem ++ String "."%char ext)%string
  = includes SUPPORTED_EXTENSIONS (String "."%char (toLowerCase ext)).
Proof.
  intros H. unfold isValidImageFile. rewrite lastIndexOf_last by exact H.
  f_equal. unfold slice.
  destruct (Z.ltb_spec (Z.of_nat (String.length stem)) 0) as [Hneg | _]; [lia |].
  rewrite toLowerCase_app. simpl toLowerCase.
  rewrite Z.min_l.
  - rewrite Nat2Z.id, <- (toLowerCase_length stem). apply drop_prefix.
  - rewrite string_length_append, toLowerCase_length. lia.
Qed.

(** X1.  A file name without a dot is never taken for an image: the
    extension the filter then reads is the last character of the name. *)
Theorem name_without_dot_is_no_image :
  forall name : string,
    occurs "."%char name = false -> isValidImageFile name = false.
Proof.
  intros name H. unfold isValidImageFile, Js.lastIndexOf.
  rewrite lastIndexOf_from_absent by exact H.
  apply short_not_supported. unfold slice.
  rewrite drop_length, !toLowerCase_length.
  change (-1 <? 0)%Z with true. cbv iota. lia.
Qed.

Lemma name_without_dot_is_no_image_witness :
  isValidImageFile "png" = false.
Proof. apply (name_without_dot_is_no_image "png"). reflexivity. Defined.

(** X2.  A name is taken for an image exactly when the text after its last
    dot, in lower case, is one of the supported extensions; what stands
    before the last dot (other dots included, or nothing at all) does not
    matter. *)
Theorem image_name_is_decided_by_last_extension :
  forall stem ext : string,
    occurs "."%char ext = false ->
    (isValidImageFile (stem ++ String "."%char ext)%string = true
     <-> In (String "."%char (toLowerCase ext)) SUPPORTED_EXTENSIONS).
Proof.
  intros stem ext H. rewrite isValidImageFile_extension by exact H.
  unfold includes. rewrite existsb_exists. split.
  - intros (x & Hx & E). apply String.eqb_eq in E. now subst.
  - intros Hin. eexists. split; [exact Hin | apply String.eqb_refl].
Qed.

Lemma image_name_is_decided_by_last_extension_witness :
  isValidImageFile "holiday.2024.JPG" = true.
Proof.
  apply (proj2 (image_name_is_decided_by_last_extension "holiday.2024" "JPG" eq_refl)).
  vm_compute. right. left. reflexivity.
Defined.

(** X3.  The file dialog and the drop filter accept the same extensions:
    every extension the dialog offers makes a name the drop filter accepts,
    and every supported extension is offered by the dialog.  The names are
    the strings of this development, sequences of code units below 256
    (ASCII and the Latin-1 supplement), on which [toLowerCase] keeps the
    length of what stands before the last dot; a name with a character whose
    lower case is longer is not covered. *)
Theorem dialog_and_drop_accept_the_same_extensions :
  (forall (e stem : string),
      In e dialogExtensions ->
      isValidImageFile (stem ++ String "."%char e)%string = true)
  /\ (forall x : string,
        In x SUPPORTED_EXTENSIONS ->
        exists e, In e dialogExtensions /\ x = String "."%char e).
Proof.
  split.
  - intros e stem Hin.
    assert (Hok : occurs "."%char e = false
                  /\ includes SUPPORTED_EXTENSIONS (String "."%char (toLowerCase e)) = true).
    { simpl in Hin.
      repeat (destruct Hin as [<- | Hin]; [split; vm_compute; reflexivity |]).
      contradiction. }
    destruct Hok as [Hdot Hinc]. now rewrite isValidImageFile_extension.
  - intros x Hin. simpl in Hin.
    repeat (destruct Hin as [<- | Hin];
            [eexists; split; [| reflexivity]; simpl; tauto |]).
    contradiction.
Qed.

Lemma dialog_and_drop_accept_the_same_extensions_witness :
  isValidImageFile "scan.tiff" = true.
Proof.
  apply (proj1 dialog_and_drop_accept_the_same_extensions "tiff" "scan").
  simpl. tauto.
Defined.

(** X4.  The name the file picker shows and the directory the root
    component derives split a path at its last separator: for a path
    [dir sep name] with a non-empty, separator-free [name], the file name is
    [name] and the directory is [dir].  A path without separator is its own
    file name and has no directory; a path that ends in a separator is shown
    whole. *)
Theorem file_name_and_directory_split_the_path :
  (forall (dir name : string) (sep : ascii),
      is_separator sep = true ->
      occurs "/"%char name = false -> occurs "\"%char name = false ->
      name <> EmptyString ->
      fileName (dir ++ String sep name)%string = name
      /\ Js.substring0 (App.lastSlashIndex (dir ++ String sep name)%string)
                       (dir ++ String sep name)%string = dir)
  /\ (forall p : string,
        occurs "/"%char p = false -> occurs "\"%char p = false ->
        fileName p = p /\ App.lastSlashIndex p = (-1)%Z)
  /\ (forall (dir : string) (sep : ascii),
        is_separator sep = true ->
        fileName (dir ++ String sep EmptyString)%string
        = (dir ++ String sep EmptyString)%string).
Proof.
  split; [| split].
  - intros dir name sep Hsep H1 H2 Hne. split.
    + unfold fileName. rewrite pop_after_separator by assumption.
      destruct name; [contradiction | reflexivity].
    + rewrite lastSlashIndex_split by assumption. apply substring0_prefix.
  - intros p H1 H2. split; [| now apply lastSlashIndex_none].
    unfold fileName. rewrite split_separators_plain by assumption.
    simpl. now destruct p.
  - intros dir sep Hsep. unfold fileName.
    rewrite pop_after_separator by (reflexivity || assumption). reflexivity.
Qed.

Lemma file_name_and_directory_split_the_path_witness :
  fileName "C:\photos\cat.png" = "cat.png"
  /\ Js.substring0 (App.lastSlashIndex "C:\photos\cat.png") "C:\photos\cat.png"
     = "C:\photos".
Proof.
  apply (proj1 file_name_and_directory_split_the_path "C:\photos" "cat.png" "\"%char);
    (reflexivity || discriminate).
Defined.

End DropZoneNames.

(** ** What the drop zone hands to the root component *)

Section DropZoneHandlers.
Import DropZone.

Lemma trackSelected_paths (env : Env) (k : nat) (paths : list string) :
  map TrackedFile.path (trackSelected env k paths)
  = List.filter (fun p => match stat env p with Some _ => true | None => false end) paths.
Proof.
  revert k. induction paths as [|p rest IH]; intros k; simpl; [reflexivity |].
  destruct (stat env p); simpl; [f_equal |]; apply IH.
Qed.

Lemma trackSelected_fresh (env : Env) (k : nat) (paths : list string) :
  Forall (fun f => TrackedFile.status f = FileStatus.pending
                   /\ TrackedFile.error f = None
                   /\ stat env (TrackedFile.path f) = Some (TrackedFile.size f)
                   /\ TrackedFile.name f = fileName (TrackedFile.path f))
         (trackSelected env k paths).
Proof.
  revert k. induction paths as [|p rest IH]; intros k; simpl; [constructor |].
  destruct (stat env p) eqn:E; [constructor; [simpl; auto | apply IH] | apply IH].
Qed.

Lemma announce_Some (fs gs : list TrackedFile.t) :
  announce fs = Some gs -> gs = fs /\ fs <> [].
Proof.
  unfold announce, Js.length. destruct fs; simpl; [discriminate |].
  intros H. injection H as <-. split; [reflexivity | discriminate].
Qed.

(** X5.  The file picker hands over exactly the selected paths whose [stat]
    succeeds, in the order of the selection, each as a pending file without
    error that carries the size [stat] reported; a path that cannot be read
    is left out without a trace, and nothing is handed over when no path
    remains, when the dialog is dismissed, or when the zone is disabled.  On
    an enabled zone, a selection with at least one readable path is handed
    over. *)
Theorem file_picker_tracks_the_readable_paths :
  (forall (env : Env) (disabled : bool) (selected : Selection)
          (trackedFiles : list TrackedFile.t),
      handleFileInput env disabled selected = Some trackedFiles ->
      disabled = false
      /\ trackedFiles <> []
      /\ map TrackedFile.path trackedFiles
         = List.filter (fun p => match stat env p with Some _ => true | None => false end)
                       (selectedPaths selected)
      /\ Forall (fun f => TrackedFile.status f = FileStatus.pending
                          /\ TrackedFile.error f = None
                          /\ stat env (TrackedFile.path f) = Some (TrackedFile.size f)
                          /\ TrackedFile.name f = fileName (TrackedFile.path f))
                trackedFiles)
  /\
  (forall (env : Env) (selected : Selection),
      truthy_selection selected = true ->
      List.filter (fun p => match stat env p with Some _ => true | None => false end)
                  (selectedPaths selected) <> [] ->
      exists trackedFiles,
        handleFileInput env false selected = Some trackedFiles
        /\ map TrackedFile.path trackedFiles
           = List.filter (fun p => match stat env p with Some _ => true | None => false end)
                         (selectedPaths selected))
  /\
  (forall (env : Env) (disabled : bool) (selected : Selection),
      disabled = true
      \/ truthy_selection selected = false
      \/ List.filter (fun p => match stat env p with Some _ => true | None => false end)
                     (selectedPaths selected) = [] ->
      handleFileInput env disabled selected = None).
Proof.
  split; [| split].
  - intros env disabled selected fs. unfold handleFileInput.
    destruct disabled; [discriminate |].
    destruct (negb (truthy_selection selected)); [discriminate |].
    intros H. apply announce_Some in H as [-> Hne].
    repeat split; [exact Hne | apply trackSelected_paths | apply trackSelected_fresh].
  - intros env selected Htruthy Hsome. unfold handleFileInput. rewrite Htruthy.
    cbn [negb]. exists (trackSelected env 0 (selectedPaths selected)).
    split; [| apply trackSelected_paths].
    unfold announce, Js.length.
    destruct (trackSelected env 0 (selectedPaths selected)) as [|f fs] eqn:E;
      [| reflexivity].
    pose proof (trackSelected_paths env 0 (selectedPaths selected)) as Hp.
    rewrite E in Hp. simpl in Hp. now rewrite <- Hp in Hsome.
  - intros env disabled selected H. unfold handleFileInput.
    destruct disabled; [reflexivity |].
    destruct H as [H | [H | H]]; [discriminate | now rewrite H |].
    destruct (negb (truthy_selection selected)); [reflexivity |].
    unfold announce, Js.length.
    destruct (trackSelected env 0 (selectedPaths selected)) as [|f fs] eqn:E;
      [reflexivity |].
    pose proof (trackSelected_paths env 0 (selectedPaths selected)) as Hp.
    rewrite E, H in Hp. discriminate.
Qed.

Lemma trackDropped_names (env : Env) (k : nat) (droppedFiles : list DroppedFile) :
  map TrackedFile.name (trackDropped env k droppedFiles)
  = List.filter isValidImageFile (map name droppedFiles).
Proof.
  revert k. induction droppedFiles as [|file rest IH]; intros k; simpl; [reflexivity |].
  destruct (isValidImageFile (name file)); simpl; [f_equal |]; [| apply IH | apply IH].
  now destruct (stat env (droppedPath file)).
Qed.

Lemma trackDropped_paths (env : Env) (k : nat) (droppedFiles : list DroppedFile) :
  map TrackedFile.path (trackDropped env k droppedFiles)
  = map droppedPath
        (List.filter (fun file => isValidImageFile (name file)) droppedFiles).
Proof.
  revert k. induction droppedFiles as [|file rest IH]; intros k; simpl; [reflexivity |].
  destruct (isValidImageFile (name file)); simpl; [f_equal |]; [| apply IH | apply IH].
  now destruct (stat env (droppedPath file)).
Qed.

Lemma trackDropped_ids (env : Env) (k : nat) (droppedFiles : list DroppedFile) :
  map TrackedFile.id (trackDropped env k droppedFiles)
  = map (generateId env) (seq k (List.length (trackDropped env k droppedFiles))).
Proof.
  revert k. induction droppedFiles as [|file rest IH]; intros k; simpl; [reflexivity |].
  destruct (isValidImageFile (name file)); simpl; [f_equal |]; [| apply IH | apply IH].
  now destruct (stat env (droppedPath file)).
Qed.

Lemma trackDropped_fresh (env : Env) (k : nat) (droppedFiles : list DroppedFile) :
  Forall (fun f => TrackedFile.status f = FileStatus.pending
                   /\ TrackedFile.error f = None
                   /\ (stat env (TrackedFile.path f) = None ->
                       TrackedFile.width f = None /\ TrackedFile.height f = None))
         (trackDropped env k droppedFiles).
Proof.
  revert k. induction droppedFiles as [|file rest IH]; intros k; simpl; [constructor |].
  destruct (isValidImageFile (name file)); [| apply IH].
  constructor; [| apply IH].
  destruct (stat env (droppedPath file)) eqn:E; simpl; repeat split; auto; congruence.
Qed.

(** X6.  A drop on an enabled zone with at least one dropped file whose
    name is an image name calls [onFilesAdded], with one file for every such
    dropped file, in the order of the drop, whether or not its [stat]
    succeeds: a file that cannot be read is still tracked, pending, without
    dimensions.  The files handed over carry the names and paths of those
    dropped files and the identifiers in the order they were drawn.  Files
    with other names are left out; a drop without any image name, or on a
    disabled zone, hands over nothing; the dragging highlight is cleared in
    every case. *)
Theorem drop_tracks_every_image_name :
  forall (env : Env) (disabled : bool) (droppedFiles : list DroppedFile),
    fst (handleDrop env disabled droppedFiles) = false
    /\ (disabled = true -> snd (handleDrop env disabled droppedFiles) = None)
    /\ (List.filter isValidImageFile (map name droppedFiles) = [] ->
        snd (handleDrop env disabled droppedFiles) = None)
    /\ (disabled = false ->
        List.filter isValidImageFile (map name droppedFiles) <> [] ->
        exists trackedFiles,
          snd (handleDrop env disabled droppedFiles) = Some trackedFiles
          /\ map TrackedFile.name trackedFiles
             = List.filter isValidImageFile (map name droppedFiles)
          /\ map TrackedFile.path trackedFiles
             = map droppedPath
                   (List.filter (fun file => isValidImageFile (name file)) droppedFiles)
          /\ map TrackedFile.id trackedFiles
             = map (generateId env) (seq 0 (List.length trackedFiles))
          /\ Forall (fun f => TrackedFile.status f = FileStatus.pending
                              /\ TrackedFile.error f = None
                              /\ (stat env (TrackedFile.path f) = None ->
                                  TrackedFile.width f = None
                                  /\ TrackedFile.height f = None))
                    trackedFiles)
    /\ forall trackedFiles,
        snd (handleDrop env disabled droppedFiles) = Some trackedFiles ->
        map TrackedFile.name trackedFiles
        = List.filter isValidImageFile (map name droppedFiles)
        /\ Forall (fun f => TrackedFile.status f = FileStatus.pending
                            /\ TrackedFile.error f = None
                            /\ (stat env (TrackedFile.path f) = None ->
                                TrackedFile.width f = None
                                /\ TrackedFile.height f = None))
                  trackedFiles.
Proof.
  intros env disabled droppedFiles. unfold handleDrop.
  split; [now destruct disabled |].
  split; [now intros -> |].
  split; [| split].
  - intros Hnone. destruct disabled; [reflexivity |]. cbn [snd].
    unfold announce, Js.length.
    destruct (trackDropped env 0 droppedFiles) as [|f fs] eqn:E; [reflexivity |].
    pose proof (trackDropped_names env 0 droppedFiles) as Hn.
    rewrite E, Hnone in Hn. discriminate.
  - intros -> Hsome. cbn [snd].
    exists (trackDropped env 0 droppedFiles). split.
    + unfold announce, Js.length.
      destruct (trackDropped env 0 droppedFiles) as [|f fs] eqn:E; [| reflexivity].
      pose proof (trackDropped_names env 0 droppedFiles) as Hn.
      rewrite E in Hn. simpl in Hn. now rewrite <- Hn in Hsome.
    + split; [apply trackDropped_names |].
      split; [apply trackDropped_paths |].
      split; [apply trackDropped_ids | apply trackDropped_fresh].
  - intros fs H. destruct disabled; [discriminate |]. cbn [snd] in H.
    apply announce_Some in H as [-> _].
    split; [apply trackDropped_names | apply trackDropped_fresh].
Qed.

End DropZoneHandlers.

(** ** The state a batch run ends in *)

Section SettledRuns.
Import App.

Lemma legacy_run_rejected b (s : State Legacy.OutputFormat) error :
  startable s = true ->
  on_optimize_batch b (Legacy.request s) = Rejected error ->
  ui (exec (Legacy.handleStart b) s)
  = mkState (map (mark_failed error) (files s))
      (operationMode s) (outputFormat s) (outputDir s) (overwrite s) (quality s)
      (resizeMode s) (resizePercentage s) (maxWidth s) (maxHeight s)
      (keepAspectRatio s) false (Js.length (files s)) 0 (Js.length (files s)).
Proof.
  intros E R. apply startable_guards in E as [E1 E2].
  unfold exec, Legacy.handleStart. cbn [ui]. rewrite E1, E2. cbn. rewrite R. cbn.
  now rewrite mark_failed_after_pending.
Qed.

Lemma current_run_rejected b (s : State Current.OutputFormat) error :
  startable s = true ->
  on_optimize_batch b (Current.request s) = Rejected error ->
  ui (exec (Current.handleStart b) s)
  = mkState (map (mark_failed error) (files s))
      (operationMode s) (outputFormat s) (outputDir s) (overwrite s) (quality s)
      (resizeMode s) (resizePercentage s) (maxWidth s) (maxHeight s)
      (keepAspectRatio s) false (Js.length (files s)) 0 (Js.length (files s)).
Proof.
  intros E R. apply startable_guards in E as [E1 E2].
  unfold exec, Current.handleStart. cbn [ui]. rewrite E1, E2. cbn. rewrite R. cbn.
  now rewrite mark_failed_after_pending.
Qed.

Lemma legacy_run_resolved b (s : State Legacy.OutputFormat) result :
  startable s = true ->
  on_optimize_batch b (Legacy.request s) = Resolved result ->
  ui (exec (Legacy.handleStart b) s)
  = mkState (map (Legacy.apply_result result) (map mark_pending (files s)))
      (operationMode s) (outputFormat s) (outputDir s) (overwrite s) (quality s)
      (resizeMode s) (resizePercentage s) (maxWidth s) (maxHeight s)
      (keepAspectRatio s) false (BatchResult.total result)
      (BatchResult.success_count result) (BatchResult.failed_count result).
Proof.
  intros E R. apply startable_guards in E as [E1 E2].
  unfold exec, Legacy.handleStart. cbn [ui]. rewrite E1, E2. cbn. rewrite R.
  reflexivity.
Qed.

Lemma current_run_resolved b (s : State Current.OutputFormat) result :
  startable s = true ->
  on_optimize_batch b (Current.request s) = Resolved result ->
  ui (exec (Current.handleStart b) s)
  = mkState (map (Current.apply_result result) (map mark_pending (files s)))
      (operationMode s) (outputFormat s) (outputDir s) (overwrite s) (quality s)
      (resizeMode s) (resizePercentage s) (maxWidth s) (maxHeight s)
      (keepAspectRatio s) false (BatchResult.total result)
      (BatchResult.success_count result) (BatchResult.failed_count result).
Proof.
  intros E R. apply startable_guards in E as [E1 E2].
  unfold exec, Current.handleStart. cbn [ui]. rewrite E1, E2. cbn. rewrite R.
  reflexivity.
Qed.

Lemma legacy_run_idle b (s : State Legacy.OutputFormat) :
  startable s = false -> ui (exec (Legacy.handleStart b) s) = s.
Proof.
  intros E. unfold exec. now rewrite legacy_handleStart_idle.
Qed.

Lemma current_run_idle b (s : State Current.OutputFormat) :
  startable s = false -> ui (exec (Current.handleStart b) s) = s.
Proof.
  intros E. unfold exec. now rewrite current_handleStart_idle.
Qed.

Lemma truthy_str_length (d : string) :
  Js.truthy_str d = (0 <? Z.of_nat (String.length d))%Z.
Proof. destruct d; reflexivity. Qed.

Lemma canStart_startable {Fmt} (s : State Fmt) :
  canStart s = true -> startable s = true /\ isProcessing s = false.
Proof.
  unfold canStart, startable. rewrite <- truthy_str_length.
  intros H. repeat (apply andb_true_iff in H as [H ?]).
  apply Z.ltb_lt in H.
  split; [| now apply negb_true_iff].
  apply andb_true_iff. split.
  - apply negb_true_iff, Z.eqb_neq. lia.
  - apply negb_true_iff. destruct (overwrite s), (Js.truthy_str (outputDir s));
      simpl in *; congruence.
Qed.

Lemma apply_result_identity_legacy result (f : TrackedFile.t) :
  TrackedFile.id (Legacy.apply_result result f) = TrackedFile.id f
  /\ TrackedFile.name (Legacy.apply_result result f) = TrackedFile.name f
  /\ TrackedFile.path (Legacy.apply_result result f) = TrackedFile.path f
  /\ TrackedFile.size (Legacy.apply_result result f) = TrackedFile.size f.
Proof.
  unfold Legacy.apply_result. destruct (find_result result f); repeat split.
Qed.

Lemma apply_result_identity_current result (f : TrackedFile.t) :
  TrackedFile.id (Current.apply_result result f) = TrackedFile.id f
  /\ TrackedFile.name (Current.apply_result result f) = TrackedFile.name f
  /\ TrackedFile.path (Current.apply_result result f) = TrackedFile.path f
  /\ TrackedFile.size (Current.apply_result result f) = TrackedFile.size f.
Proof.
  unfold Current.apply_result. destruct (find_result result f); repeat split.
Qed.

End SettledRuns.

Section RunOutcomes.
Import App Observe.

Lemma source_after_result_legacy result (f : TrackedFile.t) :
  source (Legacy.apply_result result (mark_pending f)) = source f.
Proof.
  unfold source, Legacy.apply_result. now destruct (find_result result (mark_pending f)).
Qed.

Lemma source_after_result_current result (f : TrackedFile.t) :
  source (Current.apply_result result (mark_pending f)) = source f.
Proof.
  unfold source, Current.apply_result. now destruct (find_result result (mark_pending f)).
Qed.

Lemma start_button_enabled {Fmt} (s : State Fmt) :
  ProgressPanel.startDisabled (ProgressPanel.props s) = false -> canStart s = true.
Proof.
  unfold ProgressPanel.startDisabled. simpl. intros H.
  apply orb_false_iff in H as [H _]. now apply negb_false_iff.
Qed.

(** X7.  Whenever the start button is enabled, [handleStart] passes both of
    its guards: the earlier revision sends exactly one command, the batch
    request, and the later one exactly two, the reset of the cancellation
    flag followed by the batch request. *)
Theorem enabled_start_button_submits_one_batch :
  (forall b (s : State Legacy.OutputFormat),
      ProgressPanel.startDisabled (ProgressPanel.props s) = false ->
      sent (exec (Legacy.handleStart b) s) = [optimize_batch (Legacy.request s)])
  /\
  (forall b (s : State Current.OutputFormat),
      ProgressPanel.startDisabled (ProgressPanel.props s) = false ->
      sent (exec (Current.handleStart b) s)
      = [reset_cancel_flag; optimize_batch (Current.request s)]).
Proof.
  split; intros b s H; apply start_button_enabled, canStart_startable in H as [E _];
    unfold exec.
  - rewrite legacy_handleStart_sent. simpl. now rewrite E.
  - rewrite current_handleStart_sent. simpl. now rewrite E.
Qed.

(** X8.  A batch run, however the invocation settles and also when the
    guards stop it, changes no settings cell and no tracked file's identifier,
    name, path, size or dimensions, keeps the files in their order, and, when
    started while nothing is processing, never leaves the processing flag
    set. *)
Theorem batch_run_keeps_settings_and_sources :
  (forall b (s : State Legacy.OutputFormat),
      settings (ui (exec (Legacy.handleStart b) s)) = settings s
      /\ map source (files (ui (exec (Legacy.handleStart b) s))) = map source (files s)
      /\ (isProcessing s = false ->
          isProcessing (ui (exec (Legacy.handleStart b) s)) = false))
  /\
  (forall b (s : State Current.OutputFormat),
      settings (ui (exec (Current.handleStart b) s)) = settings s
      /\ map source (files (ui (exec (Current.handleStart b) s))) = map source (files s)
      /\ (isProcessing s = false ->
          isProcessing (ui (exec (Current.handleStart b) s)) = false)).
Proof.
  split; intros b s.
  - destruct (startable s) eqn:E;
      [destruct (on_optimize_batch b (Legacy.request s)) eqn:R |].
    + rewrite (legacy_run_resolved b s _ E R). cbn [files isProcessing].
      split; [reflexivity |]. split; [| reflexivity].
      rewrite !map_map. apply map_ext. intros f. apply source_after_result_legacy.
    + rewrite (legacy_run_rejected b s _ E R). cbn [files isProcessing].
      split; [reflexivity |]. split; [| reflexivity].
      rewrite map_map. apply map_ext. intros f. reflexivity.
    + rewrite (legacy_run_idle b s E). auto.
  - destruct (startable s) eqn:E;
      [destruct (on_optimize_batch b (Current.request s)) eqn:R |].
    + rewrite (current_run_resolved b s _ E R). cbn [files isProcessing].
      split; [reflexivity |]. split; [| reflexivity].
      rewrite !map_map. apply map_ext. intros f. apply source_after_result_current.
    + rewrite (current_run_rejected b s _ E R). cbn [files isProcessing].
      split; [reflexivity |]. split; [| reflexivity].
      rewrite map_map. apply map_ext. intros f. reflexivity.
    + rewrite (current_run_idle b s E). auto.
Qed.

Lemma shows_after_result_legacy result (f : TrackedFile.t) :
  shows result (Legacy.apply_result result (mark_pending f)).
Proof.
  unfold shows, Legacy.apply_result.
  change (find_result result (mark_pending f)) with (find_result result f).
  destruct (find_result result f) as [r |] eqn:E.
  - change (find_result result _) with (find_result result f). rewrite E.
    repeat split.
  - change (find_result result (mark_pending f)) with (find_result result f).
    rewrite E. split; reflexivity.
Qed.

Lemma shows_after_result_current result (f : TrackedFile.t) :
  shows result (Current.apply_result result (mark_pending f))
  /\ match find_result result f with
     | Some r =>
         TrackedFile.outputWidth (Current.apply_result result (mark_pending f))
         = FileResult.output_width r
         /\ TrackedFile.outputHeight (Current.apply_result result (mark_pending f))
            = FileResult.output_height r
     | None => True
     end.
Proof.
  unfold shows, Current.apply_result.
  change (find_result result (mark_pending f)) with (find_result result f).
  destruct (find_result result f) as [r |] eqn:E.
  - change (find_result result _) with (find_result result f). rewrite E.
    repeat split.
  - change (find_result result (mark_pending f)) with (find_result result f).
    rewrite E. repeat split.
Qed.

(** X9.  When the batch resolves, every tracked file shows the first result
    that carries its path (status, error, output path and size), and a file
    for which the report has no result is left pending with its error
    cleared; the three counters are the ones of the report, whatever they
    were before. *)
Theorem resolved_batch_shows_first_result_per_path :
  (forall b (s : State Legacy.OutputFormat) result,
      startable s = true ->
      on_optimize_batch b (Legacy.request s) = Resolved result ->
      Forall (shows result) (files (ui (exec (Legacy.handleStart b) s)))
      /\ counters (ui (exec (Legacy.handleStart b) s))
         = (BatchResult.total result, BatchResult.success_count result,
            BatchResult.failed_count result))
  /\
  (forall b (s : State Current.OutputFormat) result,
      startable s = true ->
      on_optimize_batch b (Current.request s) = Resolved result ->
      Forall (shows result) (files (ui (exec (Current.handleStart b) s)))
      /\ counters (ui (exec (Current.handleStart b) s))
         = (BatchResult.total result, BatchResult.success_count result,
            BatchResult.failed_count result)).
Proof.
  split; intros b s result E R.
  - rewrite (legacy_run_resolved b s _ E R). cbn [files]. split; [| reflexivity].
    rewrite map_map. apply Forall_map, Forall_forall. intros f _.
    apply shows_after_result_legacy.
  - rewrite (current_run_resolved b s _ E R). cbn [files]. split; [| reflexivity].
    rewrite map_map. apply Forall_map, Forall_forall. intros f _.
    apply shows_after_result_current.
Qed.

End RunOutcomes.

Section AfterTheRun.
Import App.




Lemma no_restart_when_all_succeeded (apply : TrackedFile.t -> TrackedFile.t)
    (fs : list TrackedFile.t) :
  Forall (fun f => TrackedFile.status (apply (mark_pending f)) = FileStatus.success) fs ->
  existsb (fun f => FileStatus.eqb (TrackedFile.status f) FileStatus.pending
                    || FileStatus.eqb (TrackedFile.status f) FileStatus.failed)
          (map apply (map mark_pending fs)) = false.
Proof.
  induction 1 as [|f fs Hf _ IH]; simpl; [reflexivity |].
  now rewrite Hf, IH.
Qed.

Lemma status_from_first_result_legacy result (f : TrackedFile.t) r :
  find_result result f = Some r ->
  TrackedFile.status (Legacy.apply_result result (mark_pending f)) = FileResult.status r.
Proof.
  intros E. unfold Legacy.apply_result.
  change (find_result result (mark_pending f)) with (find_result result f).
  now rewrite E.
Qed.

Lemma status_from_first_result_current result (f : TrackedFile.t) r :
  find_result result f = Some r ->
  TrackedFile.status (Current.apply_result result (mark_pending f)) = FileResult.status r.
Proof.
  intros E. unfold Current.apply_result.
  change (find_result result (mark_pending f)) with (find_result result f).
  now rewrite E.
Qed.

(** X11.  After a batch that resolves with a successful first result for
    every tracked path, the start button's condition is false: the same
    files cannot be submitted again until a file is added or one fails. *)
Theorem fully_successful_batch_disables_start :
  (forall b (s : State Legacy.OutputFormat) result,
      startable s = true ->
      on_optimize_batch b (Legacy.request s) = Resolved result ->
      Forall (fun f => exists r, find_result result f = Some r
                                 /\ FileResult.status r = FileStatus.success) (files s) ->
      canStart (ui (exec (Legacy.handleStart b) s)) = false)
  /\
  (forall b (s : State Current.OutputFormat) result,
      startable s = true ->
      on_optimize_batch b (Current.request s) = Resolved result ->
      Forall (fun f => exists r, find_result result f = Some r
                                 /\ FileResult.status r = FileStatus.success) (files s) ->
      canStart (ui (exec (Current.handleStart b) s)) = false).
Proof.
  split; intros b s result E R Hall.
  - rewrite (legacy_run_resolved b s _ E R). unfold canStart. cbn [files].
    rewrite no_restart_when_all_succeeded; [apply andb_false_r |].
    eapply List.Forall_impl; [| exact Hall]. intros f (r & Hr & Hs).
    now rewrite (status_from_first_result_legacy _ _ _ Hr).
  - rewrite (current_run_resolved b s _ E R). unfold canStart. cbn [files].
    rewrite no_restart_when_all_succeeded; [apply andb_false_r |].
    eapply List.Forall_impl; [| exact Hall]. intros f (r & Hr & Hs).
    now rewrite (status_from_first_result_current _ _ _ Hr).
Qed.



End AfterTheRun.

(** ** More on adding, removing and clearing files *)

Section FileListFacts.
Import App Observe.
Context {Fmt : Type}.

Lemma world_eta (w : World Fmt) :
  mkWorld
    (mkState (files (ui w)) (operationMode (ui w)) (outputFormat (ui w))
       (outputDir (ui w)) (overwrite (ui w)) (quality (ui w)) (resizeMode (ui w))
       (resizePercentage (ui w)) (maxWidth (ui w)) (maxHeight (ui w))
       (keepAspectRatio (ui w)) (isProcessing (ui w)) (processedFiles (ui w))
       (successCount (ui w)) (failedCount (ui w)))
    (sent w) = w.
Proof. destruct w as [[] ?]. reflexivity. Qed.

Lemma setOutputDir_same (d : string) (w : World Fmt) :
  outputDir (ui w) = d -> snd (setOutputDir d w) = w.
Proof. intros <-. unfold setOutputDir, update. cbn. apply world_eta. Qed.

Lemma uniqueNewFiles_all_tracked (prev newFiles : list TrackedFile.t) :
  (forall f, In f newFiles -> In (TrackedFile.path f) (map TrackedFile.path prev)) ->
  uniqueNewFiles prev newFiles = [].
Proof.
  intros H. destruct (uniqueNewFiles prev newFiles) as [|f fs] eqn:E; [reflexivity |].
  assert (Hin : In f (uniqueNewFiles prev newFiles)) by (rewrite E; now left).
  apply uniqueNewFiles_In in Hin as [Hin Hnot]. apply H in Hin. contradiction.
Qed.

Lemma appendFiles_nothing_new (newFiles : list TrackedFile.t) (w : World Fmt) :
  uniqueNewFiles (files (ui w)) newFiles = [] ->
  appendFiles newFiles w = (tt, w).
Proof.
  intros E. unfold appendFiles, bind. rewrite E. cbn [Js.length List.length Z.of_nat].
  rewrite andb_false_r. unfold ret, setFiles, update. cbn.
  rewrite app_nil_r. now rewrite world_eta.
Qed.

(** The first statement either does nothing or sets the output directory,
    and which of the two, and to what, is fixed by the closure and the new
    files. *)
Lemma defaultOutputDir_decision (seen : Closure) (newFiles : list TrackedFile.t) :
  (forall w : World Fmt, defaultOutputDir seen newFiles w = (tt, w))
  \/ (seenLength seen = 0%Z /\ seenOutputDir seen = EmptyString
      /\ exists d, forall w : World Fmt,
           defaultOutputDir seen newFiles w = setOutputDir d w).
Proof.
  unfold defaultOutputDir. destruct newFiles as [|first others]; [now left |].
  destruct (Z.eqb_spec (seenLength seen) 0) as [Hl | Hl]; [| now left].
  destruct (seenOutputDir seen) as [|c d] eqn:Hd; [| now left].
  simpl. destruct (negb _); [| now left].
  right. repeat split; auto. eexists. intros w. reflexivity.
Qed.

Lemma defaultOutputDir_idle (seen : Closure) (newFiles : list TrackedFile.t)
    (w : World Fmt) :
  seenLength seen <> 0%Z \/ seenOutputDir seen <> EmptyString ->
  defaultOutputDir seen newFiles w = (tt, w).
Proof.
  intros H. destruct (defaultOutputDir_decision seen newFiles)
    as [E | (Hl & Hd & _)]; [apply E |].
  destruct H; contradiction.
Qed.

Lemma defaultOutputDir_tracked (newFiles : list TrackedFile.t) (w : World Fmt) :
  files (ui w) <> [] -> defaultOutputDir (closureOf (ui w)) newFiles w = (tt, w).
Proof.
  intros Hne. apply defaultOutputDir_idle. left. unfold closureOf, Js.length. simpl.
  destruct (files (ui w)); [contradiction | simpl; lia].
Qed.

Lemma appendFiles_keeps_outputDir (newFiles : list TrackedFile.t) (w : World Fmt) :
  outputDir (ui (snd (appendFiles newFiles w))) = outputDir (ui w).
Proof.
  unfold appendFiles, bind.
  destruct (_ && _); [destruct (0 <? _)%Z |]; reflexivity.
Qed.

Lemma all_tracked_after_adding (seen : Closure) (newFiles : list TrackedFile.t)
    (w : World Fmt) (f : TrackedFile.t) :
  In f newFiles ->
  In (TrackedFile.path f)
     (map TrackedFile.path (files (ui (snd (handleFilesAddedWith seen newFiles w))))).
Proof.
  intros Hf. rewrite (proj1 (handleFilesAddedWith_files seen newFiles w)), map_app.
  apply in_or_app.
  destruct (in_dec string_dec (TrackedFile.path f)
              (map TrackedFile.path (files (ui w)))) as [Hin | Hnot];
    [now left | right].
  apply in_map. apply uniqueNewFiles_In. auto.
Qed.

(** X13.  Adding files whose paths are all tracked already never changes
    the file list, a counter, or any settings cell other than the output
    directory, and sends nothing, whatever the callback captured; when the
    callback captured a non-empty list or a set output directory, the whole
    state is unchanged.  Adding the same files a second time has no further
    effect, through the same callback as well as through the callback of the
    state the first addition left. *)
Theorem adding_tracked_files_changes_nothing :
  (forall (seen : Closure) (newFiles : list TrackedFile.t) (w : World Fmt),
      (forall f, In f newFiles ->
                 In (TrackedFile.path f) (map TrackedFile.path (files (ui w)))) ->
      let w' := snd (handleFilesAddedWith seen newFiles w) in
      files (ui w') = files (ui w)
      /\ counters (ui w') = counters (ui w)
      /\ sent w' = sent w
      /\ (operationMode (ui w'), outputFormat (ui w'), overwrite (ui w'),
          quality (ui w'), resizeMode (ui w'), resizePercentage (ui w'),
          maxWidth (ui w'), maxHeight (ui w'), keepAspectRatio (ui w'),
          isProcessing (ui w'))
         = (operationMode (ui w), outputFormat (ui w), overwrite (ui w),
            quality (ui w), resizeMode (ui w), resizePercentage (ui w),
            maxWidth (ui w), maxHeight (ui w), keepAspectRatio (ui w),
            isProcessing (ui w))
      /\ (seenLength seen <> 0%Z \/ seenOutputDir seen <> EmptyString -> w' = w))
  /\
  (forall (seen : Closure) (newFiles : list TrackedFile.t) (w : World Fmt),
      snd (handleFilesAddedWith seen newFiles
             (snd (handleFilesAddedWith seen newFiles w)))
      = snd (handleFilesAddedWith seen newFiles w))
  /\
  (forall (seen : Closure) (newFiles : list TrackedFile.t) (w : World Fmt),
      snd (handleFilesAdded newFiles (snd (handleFilesAddedWith seen newFiles w)))
      = snd (handleFilesAddedWith seen newFiles w)).
Proof.
  split; [| split].
  - intros seen newFiles w H. cbv zeta. unfold handleFilesAddedWith, bind.
    destruct (defaultOutputDir_decision seen newFiles)
      as [E | (Hl & Hd & d & E)]; rewrite E.
    + rewrite appendFiles_nothing_new by now apply uniqueNewFiles_all_tracked.
      repeat split.
    + unfold setOutputDir, update.
      rewrite appendFiles_nothing_new by now apply uniqueNewFiles_all_tracked.
      cbn. repeat split. intros [Hc | Hc]; contradiction.
  - intros seen newFiles w.
    set (w2 := snd (handleFilesAddedWith seen newFiles w)).
    assert (Hnew : uniqueNewFiles (files (ui w2)) newFiles = []).
    { apply uniqueNewFiles_all_tracked. intros f Hf.
      now apply all_tracked_after_adding. }
    unfold handleFilesAddedWith at 1. unfold bind.
    destruct (defaultOutputDir_decision seen newFiles)
      as [E | (Hl & Hd & d & E)]; rewrite E.
    + now rewrite appendFiles_nothing_new.
    + assert (Hdir : outputDir (ui w2) = d).
      { subst w2. unfold handleFilesAddedWith, bind. rewrite E.
        unfold setOutputDir, update. now rewrite appendFiles_keeps_outputDir. }
      destruct (setOutputDir d w2) as [[] w3] eqn:Es.
      assert (Hw3 : w3 = w2).
      { change w3 with (snd (tt, w3)). rewrite <- Es. now apply setOutputDir_same. }
      subst w3. now rewrite appendFiles_nothing_new.
  - intros seen newFiles w.
    set (w2 := snd (handleFilesAddedWith seen newFiles w)).
    assert (Hnew : uniqueNewFiles (files (ui w2)) newFiles = []).
    { apply uniqueNewFiles_all_tracked. intros f Hf.
      now apply all_tracked_after_adding. }
    unfold handleFilesAdded, handleFilesAddedWith at 1. unfold bind.
    assert (Hidle : defaultOutputDir (closureOf (ui w2)) newFiles w2 = (tt, w2)).
    { destruct newFiles as [|f fs]; [reflexivity |].
      apply defaultOutputDir_tracked.
      pose proof (all_tracked_after_adding seen (f :: fs) w f (or_introl eq_refl))
        as Hin.
      fold w2 in Hin. intros E. rewrite E in Hin. exact Hin. }
    rewrite Hidle. now rewrite appendFiles_nothing_new.
Qed.

(** X14.  When the callback captured an empty file list and no output
    directory, adding files sets the output directory to the directory of the
    first new file, the part of its path before the last [/] or backslash,
    whatever the current state is. *)
Theorem first_addition_sets_output_directory :
  forall (seen : Closure) (w : World Fmt) (first : TrackedFile.t)
         (others : list TrackedFile.t) (dir name : string) (sep : ascii),
    seenLength seen = 0%Z -> seenOutputDir seen = EmptyString ->
    TrackedFile.path first = (dir ++ String sep name)%string ->
    JsString.is_separator sep = true ->
    JsString.occurs "/"%char name = false -> JsString.occurs "\"%char name = false ->
    outputDir (ui (snd (handleFilesAddedWith seen (first :: others) w))) = dir.
Proof.
  intros seen w first others dir name sep Hlen Hdir Hpath Hsep H1 H2.
  unfold handleFilesAddedWith, bind.
  destruct (defaultOutputDir seen (first :: others) w) as [[] w1] eqn:E.
  rewrite appendFiles_keeps_outputDir.
  unfold defaultOutputDir in E. rewrite Hlen, Hdir, Hpath in E.
  cbn [Z.eqb Js.truthy_str negb andb] in E.
  rewrite lastSlashIndex_split in E by assumption.
  destruct (Z.eqb_spec (Z.of_nat (String.length dir)) (-1)) as [Hneg | _]; [lia |].
  cbn [negb] in E. rewrite substring0_prefix in E.
  injection E as <-. reflexivity.
Qed.

Lemma captured_values_keep_the_output_directory (seen : Closure) (w : World Fmt)
    (newFiles : list TrackedFile.t) :
  seenLength seen <> 0%Z \/ seenOutputDir seen <> EmptyString ->
  outputDir (ui (snd (handleFilesAddedWith seen newFiles w))) = outputDir (ui w).
Proof.
  intros H. unfold handleFilesAddedWith, bind.
  rewrite defaultOutputDir_idle by exact H. apply appendFiles_keeps_outputDir.
Qed.

(** X15.  An addition leaves the output directory alone when the callback
    captured a non-empty file list, when it captured a set output directory,
    or when the first new path has no separator.  What counts is what the
    callback captured: the current output directory itself is not looked
    at. *)
Theorem addition_keeps_the_output_directory :
  forall (seen : Closure) (w : World Fmt) (newFiles : list TrackedFile.t),
    (seenLength seen <> 0%Z
     \/ seenOutputDir seen <> EmptyString
     \/ (forall first, head newFiles = Some first ->
           JsString.occurs "/"%char (TrackedFile.path first) = false
           /\ JsString.occurs "\"%char (TrackedFile.path first) = false)) ->
    outputDir (ui (snd (handleFilesAddedWith seen newFiles w))) = outputDir (ui w).
Proof.
  intros seen w newFiles H. unfold handleFilesAddedWith, bind.
  destruct (defaultOutputDir seen newFiles w) as [[] w1] eqn:E.
  rewrite appendFiles_keeps_outputDir.
  assert (Hw : w1 = w); [| now subst].
  destruct H as [H | [H | H]].
  - rewrite defaultOutputDir_idle in E by now left. now injection E.
  - rewrite defaultOutputDir_idle in E by now right. now injection E.
  - unfold defaultOutputDir in E. destruct newFiles as [|first others];
      [now injection E |].
    destruct (H first eq_refl) as [H1 H2].
    rewrite lastSlashIndex_none in E by assumption.
    destruct (_ && _) in E; now injection E.
Qed.

End FileListFacts.

Section MaximumDimensions.
Import App.
Context {Fmt : Type}.

Lemma fold_max_bounds (xs : list Z) (x : Z) :
  (x <= fold_left Z.max xs x)%Z
  /\ (forall y, In y xs -> (y <= fold_left Z.max xs x)%Z)
  /\ (fold_left Z.max xs x = x \/ In (fold_left Z.max xs x) xs).
Proof.
  revert x. induction xs as [|a xs IH]; intros x; simpl.
  - split; [lia |]. split; [tauto | now left].
  - destruct (IH (Z.max x a)) as (H1 & H2 & H3). split; [lia |]. split.
    + intros y [<- | Hy]; [lia | now apply H2].
    + destruct H3 as [H3 | H3]; [| right; now right].
      rewrite H3. destruct (Z.max_spec x a) as [[_ ->] | [_ ->]];
        [right; now left | now left].
Qed.

Lemma max_of_bounds (xs : list Z) :
  xs <> [] ->
  In (Js.max_of xs) xs /\ forall y, In y xs -> (y <= Js.max_of xs)%Z.
Proof.
  destruct xs as [|x xs]; [contradiction |]. intros _. simpl Js.max_of.
  destruct (fold_max_bounds xs x) as (H1 & H2 & H3). split.
  - destruct H3 as [-> | H3]; [now left | now right].
  - intros y [<- | Hy]; auto.
Qed.

Lemma defaultOutputDir_keeps_dimensions (seen : Closure)
    (newFiles : list TrackedFile.t) (w : World Fmt) :
  maxWidth (ui (snd (defaultOutputDir seen newFiles w))) = maxWidth (ui w)
  /\ maxHeight (ui (snd (defaultOutputDir seen newFiles w))) = maxHeight (ui w).
Proof.
  unfold defaultOutputDir. destruct newFiles as [|f fs]; [split; reflexivity |].
  destruct (_ && _); [| split; reflexivity].
  destruct (negb _); split; reflexivity.
Qed.

Lemma appendFiles_dimensions (newFiles : list TrackedFile.t) (w : World Fmt) :
  let fresh := uniqueNewFiles (files (ui w)) newFiles in
  let dims := filesWithDims fresh in
  (maxWidth (ui (snd (appendFiles newFiles w))),
   maxHeight (ui (snd (appendFiles newFiles w))))
  = if (Js.length (files (ui w)) =? 0)%Z && (0 <? Js.length fresh)%Z
       && (0 <? Js.length dims)%Z
    then (Js.max_of (map width_of dims), Js.max_of (map height_of dims))
    else (maxWidth (ui w), maxHeight (ui w)).
Proof.
  cbv zeta. unfold appendFiles, bind.
  destruct (_ && _); [destruct (0 <? _)%Z |]; reflexivity.
Qed.

(** X16.  The first addition to an empty list seeds the maximum width and
    height from the new files that report both dimensions: each seed is the
    dimension of one of those files and bounds that dimension of all of them.
    An addition to a list that already has files leaves both cells alone,
    however large the new files are. *)
Theorem first_addition_seeds_maximum_dimensions :
  (forall (w : World Fmt) (newFiles : list TrackedFile.t),
      files (ui w) = [] ->
      filesWithDims newFiles <> [] ->
      let w' := snd (handleFilesAdded newFiles w) in
      (exists f, In f (filesWithDims newFiles) /\ maxWidth (ui w') = width_of f)
      /\ (exists f, In f (filesWithDims newFiles) /\ maxHeight (ui w') = height_of f)
      /\ (forall f v h,
             In f newFiles ->
             TrackedFile.width f = Some v -> TrackedFile.height f = Some h ->
             v <> 0%Z -> h <> 0%Z ->
             (v <= maxWidth (ui w'))%Z /\ (h <= maxHeight (ui w'))%Z))
  /\
  (forall (w : World Fmt) (newFiles : list TrackedFile.t),
      files (ui w) <> [] ->
      maxWidth (ui (snd (handleFilesAdded newFiles w))) = maxWidth (ui w)
      /\ maxHeight (ui (snd (handleFilesAdded newFiles w))) = maxHeight (ui w)).
Proof.
  split.
  - intros w newFiles Hfiles Hdims w'.
    assert (Hseed : maxWidth (ui w') = Js.max_of (map width_of (filesWithDims newFiles))
                    /\ maxHeight (ui w')
                       = Js.max_of (map height_of (filesWithDims newFiles))).
    { subst w'. unfold handleFilesAdded, handleFilesAddedWith, bind.
      pose proof (defaultOutputDir_files (closureOf (ui w)) newFiles w) as [Hf _].
      destruct (defaultOutputDir (closureOf (ui w)) newFiles w) as [[] w1].
      simpl in Hf.
      pose proof (appendFiles_dimensions newFiles w1) as Hd. cbv zeta in Hd.
      rewrite Hf, Hfiles, uniqueNewFiles_nil in Hd.
      assert (Hlen : forall A (l : list A), l <> [] -> (0 <? Js.length l)%Z = true).
      { intros A l Hl. apply Z.ltb_lt. unfold Js.length.
        destruct l; [contradiction | simpl; lia]. }
      rewrite (Hlen _ _ Hdims) in Hd.
      rewrite (Hlen _ newFiles) in Hd
        by (intros ->; apply Hdims; reflexivity).
      simpl in Hd. now injection Hd. }
    destruct Hseed as [Hw Hh]. rewrite Hw, Hh.
    assert (Hmw : map width_of (filesWithDims newFiles) <> [])
      by (destruct (filesWithDims newFiles); [contradiction | discriminate]).
    assert (Hmh : map height_of (filesWithDims newFiles) <> [])
      by (destruct (filesWithDims newFiles); [contradiction | discriminate]).
    destruct (max_of_bounds _ Hmw) as [Win Wle].
    destruct (max_of_bounds _ Hmh) as [Hin Hle].
    split; [| split].
    + apply in_map_iff in Win as (f & Ef & Hf). now exists f.
    + apply in_map_iff in Hin as (f & Ef & Hf). now exists f.
    + intros f v h Hf Ev Eh Hv Hh0.
      assert (Hd : In f (filesWithDims newFiles)).
      { apply filter_In. split; [exact Hf |]. rewrite Ev, Eh. simpl.
        apply andb_true_iff.
        split; apply negb_true_iff, Z.eqb_neq; assumption. }
      split.
      * replace v with (width_of f) by (unfold width_of; now rewrite Ev).
        apply Wle. now apply in_map.
      * replace h with (height_of f) by (unfold height_of; now rewrite Eh).
        apply Hle. now apply in_map.
  - intros w newFiles Hne. unfold handleFilesAdded, handleFilesAddedWith, bind.
    rewrite defaultOutputDir_tracked by exact Hne.
    pose proof (appendFiles_dimensions newFiles w) as Hd. cbv zeta in Hd.
    destruct (files (ui w)) eqn:E; [contradiction |].
    simpl in Hd. now injection Hd.
Qed.

End MaximumDimensions.

Section RemovingAndClearing.
Import App Observe.

Lemma filter_keeps_all {A} (p : A -> bool) (l : list A) :
  (forall x, In x l -> p x = true) -> List.filter p l = l.
Proof.
  induction l as [|x l IH]; intros H; simpl; [reflexivity |].
  rewrite (H x) by now left. f_equal. apply IH. intros y Hy. apply H. now right.
Qed.

(** X17.  Removing a file that was just added gives back the file list as
    it was: if the file's path was not tracked and no tracked file has its
    identifier, adding it and then removing its identifier leaves exactly the
    files tracked before, in their order.  Removing never sends anything and
    leaves the counters as they are. *)
Theorem removing_an_added_file_restores_the_list :
  forall (Fmt : Type) (w : World Fmt) (f : TrackedFile.t),
    ~ In (TrackedFile.path f) (map TrackedFile.path (files (ui w))) ->
    ~ In (TrackedFile.id f) (map TrackedFile.id (files (ui w))) ->
    let added := snd (handleFilesAdded [f] w) in
    let removed := snd (handleFileRemove (TrackedFile.id f) added) in
    files (ui added) = files (ui w) ++ [f]
    /\ files (ui removed) = files (ui w)
    /\ sent removed = sent w
    /\ counters (ui removed) = counters (ui added).
Proof.
  intros Fmt w f Hpath Hid added removed.
  assert (Hadded : files (ui added) = files (ui w) ++ [f]).
  { subst added. rewrite (proj1 (handleFilesAdded_files [f] w)). f_equal.
    unfold uniqueNewFiles. simpl. rewrite bool_decide_eq_false_2; [reflexivity |].
    now rewrite existingPaths_spec. }
  split; [exact Hadded |]. subst removed. unfold handleFileRemove. cbn.
  split; [| split; [apply (proj2 (handleFilesAdded_files [f] w)) | reflexivity]].
  rewrite Hadded, List.filter_app. simpl. rewrite String.eqb_refl. simpl.
  rewrite app_nil_r. apply filter_keeps_all. intros g Hg.
  apply negb_true_iff, String.eqb_neq. intros E. apply Hid.
  rewrite <- E. now apply in_map.
Qed.

(** X18.  After "clear all" the file list is empty and the three counters
    are zero, the settings are untouched, the start condition is false, and
    starting a batch in either revision sends nothing. *)
Theorem clearing_leaves_nothing_to_start :
  (forall (Fmt : Type) (w : World Fmt),
      let cleared := snd (handleClearAll w) in
      files (ui cleared) = []
      /\ counters (ui cleared) = (0, 0, 0)%Z
      /\ settings (ui cleared) = settings (ui w)
      /\ sent cleared = sent w
      /\ canStart (ui cleared) = false)
  /\ (forall b (w : World Legacy.OutputFormat),
        sent (snd (Legacy.handleStart b (snd (handleClearAll w)))) = sent w)
  /\ (forall b (w : World Current.OutputFormat),
        sent (snd (Current.handleStart b (snd (handleClearAll w)))) = sent w).
Proof.
  split; [| split].
  - intros Fmt w. cbv zeta. repeat split.
  - intros b w. rewrite legacy_handleStart_sent. cbn. apply app_nil_r.
  - intros b w. rewrite current_handleStart_sent. cbn. apply app_nil_r.
Qed.

End RemovingAndClearing.

(** ** The settings panel and the request *)

Section PanelAndRequest.
Import App.

(** X19.  In the later revision the settings panel shows a control exactly
    when the request carries the field the control edits: the format selector
    with [format], the quality slider with [quality], the resize block with
    [resize_mode], the percentage block with [resize_percentage]; and the
    width and height are only sent while the dimensions block is shown. *)
Theorem current_panel_shows_what_is_sent :
  forall s : State Current.OutputFormat,
    (CurrentPanel.showsFormat s = true <-> Request.format (Current.request s) <> None)
    /\ (CurrentPanel.showsQuality s = true
        <-> Request.quality (Current.request s) <> None)
    /\ (CurrentPanel.showsResize s = true
        <-> Request.resize_mode (Current.request s) <> None)
    /\ (CurrentPanel.showsPercentage s = true
        <-> Request.resize_percentage (Current.request s) <> None)
    /\ (Request.max_width (Current.request s) <> None
        \/ Request.max_height (Current.request s) <> None ->
        CurrentPanel.showsDimensions s = true).
Proof.
  intros s.
  unfold CurrentPanel.showsFormat, CurrentPanel.showsQuality, CurrentPanel.showsResize,
    CurrentPanel.showsPercentage, CurrentPanel.showsDimensions, CurrentPanel.showsResize.
  simpl.
  destruct (operationMode s), (outputFormat s), (resizeMode s),
    (0 <? maxWidth s)%Z, (0 <? maxHeight s)%Z; simpl;
    intuition (discriminate || congruence).
Qed.

(** X20.  In the earlier revision likewise: the format selector is shown
    exactly when [format] is sent, the quality slider exactly when [quality]
    is sent, and width and height are only sent while the resize block is
    shown. *)
Theorem legacy_panel_shows_what_is_sent :
  forall s : State Legacy.OutputFormat,
    (LegacyPanel.showsFormat s = true <-> Request.format (Legacy.request s) <> None)
    /\ (LegacyPanel.showsQuality s = true
        <-> Request.quality (Legacy.request s) <> None)
    /\ (Request.max_width (Legacy.request s) <> None
        \/ Request.max_height (Legacy.request s) <> None ->
        LegacyPanel.showsResize s = true).
Proof.
  intros s.
  unfold LegacyPanel.showsFormat, LegacyPanel.showsQuality, LegacyPanel.showsResize.
  simpl.
  destruct (operationMode s), (outputFormat s),
    (0 <? maxWidth s)%Z, (0 <? maxHeight s)%Z; simpl;
    intuition (discriminate || congruence).
Qed.

(** X21.  In the earlier revision a folder typed into an enabled folder
    input is the folder that is sent.  In the later revision this fails in
    convert mode: with [overwrite] on, the folder input is enabled and the
    overwrite checkbox is hidden, yet the request carries the empty
    [output_dir], whatever folder is set. *)
Theorem folder_input_and_output_dir :
  (forall s : State Legacy.OutputFormat,
      LegacyPanel.outputDirDisabled s = false ->
      Request.output_dir (Legacy.request s) = outputDir s)
  /\
  (forall s : State Current.OutputFormat,
      operationMode s = OperationMode.convert ->
      overwrite s = true -> isProcessing s = false ->
      CurrentPanel.outputDirDisabled s = false
      /\ CurrentPanel.showsOverwrite s = false
      /\ Request.output_dir (Current.request s) = EmptyString)
  /\
  (forall s : State Current.OutputFormat,
      operationMode s <> OperationMode.convert ->
      CurrentPanel.outputDirDisabled s = false ->
      Request.output_dir (Current.request s) = outputDir s).
Proof.
  split; [| split].
  - intros s H. unfold LegacyPanel.outputDirDisabled in H.
    apply orb_false_iff in H as [_ H]. simpl. now rewrite H.
  - intros s Hm Ho Hp.
    unfold CurrentPanel.outputDirDisabled, CurrentPanel.showsOverwrite. simpl.
    rewrite Hm, Ho, Hp. repeat split.
  - intros s Hm H. unfold CurrentPanel.outputDirDisabled in H.
    apply orb_false_iff in H as [_ H]. simpl.
    destruct (operationMode s); try congruence; simpl in H; now rewrite H.
Qed.

(** X22.  The resize fields of the later revision's request exclude each
    other: a request with [resize_percentage] carries no [max_width] and no
    [max_height]; a width or height that is sent is positive and is the
    value of its cell; and a mode that does not resize sends none of the
    four resize fields. *)
Theorem resize_fields_exclude_each_other :
  forall s : State Current.OutputFormat,
    (Request.resize_percentage (Current.request s) <> None ->
     Request.max_width (Current.request s) = None
     /\ Request.max_height (Current.request s) = None)
    /\ (forall v, Request.max_width (Current.request s) = Some v ->
                  (0 < v)%Z /\ v = maxWidth s)
    /\ (forall v, Request.max_height (Current.request s) = Some v ->
                  (0 < v)%Z /\ v = maxHeight s)
    /\ (resizes (operationMode s) = false ->
        Request.resize_mode (Current.request s) = None
        /\ Request.resize_percentage (Current.request s) = None
        /\ Request.max_width (Current.request s) = None
        /\ Request.max_height (Current.request s) = None).
Proof.
  intros s. simpl.
  destruct (resizes (operationMode s)), (resizeMode s); simpl;
    destruct (Z.ltb_spec 0 (maxWidth s)), (Z.ltb_spec 0 (maxHeight s));
    repeat split; intros; try congruence; try lia.
Qed.

End PanelAndRequest.

(** ** Changing the format, and the option tables *)

Section FormatAndOptions.
Import App Observe.

(** X23.  Choosing a format sets the format cell and, for a lossy format,
    resets the quality to that format's default (png 90, webp 75, and in the
    later revision jpeg 85), overriding the slider; for the other formats the
    quality is kept.  Nothing else changes and nothing is sent, a quality
    within 1 to 100 stays within it, and in a recompressing mode the request
    then carries exactly the default of a lossy format and no quality for the
    others. *)
Theorem format_change_sets_the_default_quality :
  (forall (f : Legacy.OutputFormat) (w : World Legacy.OutputFormat),
      let w' := snd (LegacyFormat.handleFormatChange f w) in
      outputFormat (ui w') = f
      /\ quality (ui w')
         = match f with
           | Legacy.png => 90%Z
           | Legacy.webp => 75%Z
           | _ => quality (ui w)
           end
      /\ ((1 <= quality (ui w) <= 100)%Z -> (1 <= quality (ui w') <= 100)%Z)
      /\ files (ui w') = files (ui w)
      /\ counters (ui w') = counters (ui w)
      /\ (operationMode (ui w'), outputDir (ui w'), overwrite (ui w'),
          maxWidth (ui w'), maxHeight (ui w'), keepAspectRatio (ui w'))
         = (operationMode (ui w), outputDir (ui w), overwrite (ui w),
            maxWidth (ui w), maxHeight (ui w), keepAspectRatio (ui w))
      /\ sent w' = sent w
      /\ (recompresses (operationMode (ui w)) = true ->
          Request.quality (Legacy.request (ui w'))
          = match f with
            | Legacy.png => Some 90%Z
            | Legacy.webp => Some 75%Z
            | _ => None
            end))
  /\
  (forall (f : Current.OutputFormat) (w : World Current.OutputFormat),
      let w' := snd (CurrentFormat.handleFormatChange f w) in
      outputFormat (ui w') = f
      /\ quality (ui w')
         = match f with
           | Current.png => 90%Z
           | Current.webp => 75%Z
           | Current.jpeg => 85%Z
           | _ => quality (ui w)
           end
      /\ ((1 <= quality (ui w) <= 100)%Z -> (1 <= quality (ui w') <= 100)%Z)
      /\ files (ui w') = files (ui w)
      /\ counters (ui w') = counters (ui w)
      /\ (operationMode (ui w'), outputDir (ui w'), overwrite (ui w'),
          resizeMode (ui w'), resizePercentage (ui w'),
          maxWidth (ui w'), maxHeight (ui w'), keepAspectRatio (ui w'))
         = (operationMode (ui w), outputDir (ui w), overwrite (ui w),
            resizeMode (ui w), resizePercentage (ui w),
            maxWidth (ui w), maxHeight (ui w), keepAspectRatio (ui w))
      /\ sent w' = sent w
      /\ (recompresses (operationMode (ui w)) = true ->
          Request.quality (Current.request (ui w'))
          = match f with
            | Current.png => Some 90%Z
            | Current.webp => Some 75%Z
            | Current.jpeg => Some 85%Z
            | _ => None
            end)).
Proof.
  split; intros f w; cbv zeta; destruct f; cbn;
    repeat split; try lia; intros H; try rewrite H; reflexivity.
Qed.

(** X24.  Every operation mode has exactly one entry in the table of mode
    options, so the description looked up for the info badge is always
    found; and every output format of the earlier revision has exactly one
    entry in the table of format options. *)
Theorem option_tables_cover_every_value_once :
  (forall m : OperationMode.t,
      List.length (List.filter (fun opt => OperationMode.eqb (Options.value opt) m)
                               Options.OPERATION_MODE_OPTIONS) = 1%nat
      /\ exists d, Options.modeDescription m = Some d)
  /\
  (forall f : Legacy.OutputFormat,
      List.length (List.filter (fun opt => Legacy.format_eqb (fst opt) f)
                               Options.FORMAT_OPTIONS) = 1%nat).
Proof.
  split.
  - intros m. destruct m; (split; [reflexivity | eexists; reflexivity]).
  - intros f. destruct f; reflexivity.
Qed.

End FormatAndOptions.

(** ** Cancellation plumbing of the later revision *)

Section CancellationFacts.
Import App Observe.

(** X25.  The later revision's cancel handler always sends exactly the
    [cancel_batch] command.  When that command resolves the processing flag
    is cleared; when it rejects the component state is left exactly as it
    was, so the UI keeps showing the batch as processing.  Files, settings
    and counters are never touched. *)
Theorem cancel_clears_processing_only_when_acknowledged :
  forall (b : Backend Current.OutputFormat) (w : World Current.OutputFormat),
    let w' := snd (Current.handleCancel b w) in
    sent w' = sent w ++ [cancel_batch]
    /\ files (ui w') = files (ui w)
    /\ settings (ui w') = settings (ui w)
    /\ counters (ui w') = counters (ui w)
    /\ isProcessing (ui w')
       = match on_cancel_batch b with
         | Resolved _ => false
         | Rejected _ => isProcessing (ui w)
         end.
Proof.
  intros b w. cbv zeta. unfold Current.handleCancel. cbn.
  destruct (on_cancel_batch b); cbn; repeat split.
Qed.

(** X26.  A rejected reset of the cancellation flag does not stop the
    batch: the later revision's [handleStart] sends the same commands and
    ends in the same state whether the reset resolves or rejects. *)
Theorem failed_reset_does_not_stop_the_batch :
  forall (reply1 reply2 : Settled unit)
         (batch : Request.t Current.OutputFormat -> Settled BatchResult.t)
         (cancel : Settled unit) (w : World Current.OutputFormat),
    Current.handleStart (mkBackend reply1 batch cancel) w
    = Current.handleStart (mkBackend reply2 batch cancel) w.
Proof.
  intros reply1 reply2 batch cancel w. unfold Current.handleStart.
  destruct (_ =? _)%Z; [reflexivity |].
  destruct (negb _ && _); reflexivity.
Qed.

End CancellationFacts.

Section AfterAdding.
Import App.

Lemma maxOriginal_is_seed (fs : list TrackedFile.t) :
  filesWithDims fs <> [] ->
  (0 <? Js.length (filesWithDims fs))%Z = true.
Proof.
  intros H. apply Z.ltb_lt. unfold Js.length.
  destruct (filesWithDims fs); [contradiction | simpl; lia].
Qed.

(** X27.  After the first addition to an empty list in which some file
    reports both dimensions, the width and height cells equal the largest
    original width and height that the settings panel of either revision
    computes from the tracked files. *)
Theorem seeded_dimensions_are_the_panel_maxima :
  (forall (w : World Legacy.OutputFormat) (newFiles : list TrackedFile.t),
      files (ui w) = [] -> filesWithDims newFiles <> [] ->
      let s' := ui (snd (handleFilesAdded newFiles w)) in
      maxWidth s' = LegacyPanel.maxOriginalWidth s'
      /\ maxHeight s' = LegacyPanel.maxOriginalHeight s')
  /\
  (forall (w : World Current.OutputFormat) (newFiles : list TrackedFile.t),
      files (ui w) = [] -> filesWithDims newFiles <> [] ->
      let s' := ui (snd (handleFilesAdded newFiles w)) in
      maxWidth s' = CurrentPanel.maxOriginalWidth s'
      /\ maxHeight s' = CurrentPanel.maxOriginalHeight s').
Proof.
  assert (Hgen : forall Fmt (w : World Fmt) (newFiles : list TrackedFile.t),
             files (ui w) = [] -> filesWithDims newFiles <> [] ->
             files (ui (snd (handleFilesAdded newFiles w))) = newFiles
             /\ maxWidth (ui (snd (handleFilesAdded newFiles w)))
                = Js.max_of (map width_of (filesWithDims newFiles))
             /\ maxHeight (ui (snd (handleFilesAdded newFiles w)))
                = Js.max_of (map height_of (filesWithDims newFiles))).
  { intros Fmt w newFiles Hfiles Hdims. split.
    - rewrite (proj1 (handleFilesAdded_files newFiles w)), Hfiles.
      apply uniqueNewFiles_nil.
    - unfold handleFilesAdded, handleFilesAddedWith, bind.
      pose proof (defaultOutputDir_files (closureOf (ui w)) newFiles w) as [Hf _].
      destruct (defaultOutputDir (closureOf (ui w)) newFiles w) as [[] w1].
      simpl in Hf.
      pose proof (appendFiles_dimensions newFiles w1) as Hd. cbv zeta in Hd.
      rewrite Hf, Hfiles, uniqueNewFiles_nil in Hd.
      rewrite (maxOriginal_is_seed _ Hdims) in Hd.
      assert (Hnew : (0 <? Js.length newFiles)%Z = true).
      { apply Z.ltb_lt. unfold Js.length.
        destruct newFiles; [exfalso; now apply Hdims | simpl; lia]. }
      rewrite Hnew in Hd. simpl in Hd. now injection Hd. }
  split; intros w newFiles Hfiles Hdims; cbv zeta;
    destruct (Hgen _ w newFiles Hfiles Hdims) as (Hf & Hw & Hh).
  - unfold LegacyPanel.maxOriginalWidth, LegacyPanel.maxOriginalHeight.
    rewrite Hf, (maxOriginal_is_seed _ Hdims). now split.
  - unfold CurrentPanel.maxOriginalWidth, CurrentPanel.maxOriginalHeight.
    rewrite Hf, (maxOriginal_is_seed _ Hdims). now split.
Qed.

(** X28.  Adding a pending file whose path is not tracked yet, while
    nothing is processing, makes the start condition true when overwrite is
    on, or when an output directory is set and the callback captured a
    non-empty file list or a set output directory.  A callback that captured
    an empty list and no output directory can instead replace a set output
    directory by the empty directory of a path such as [/a.png], after which,
    with overwrite off, the start condition is false. *)
Theorem adding_a_pending_file_enables_start :
  (forall (Fmt : Type) (seen : Closure) (w : World Fmt)
          (newFiles : list TrackedFile.t) (f : TrackedFile.t),
      isProcessing (ui w) = false ->
      overwrite (ui w) = true
      \/ (outputDir (ui w) <> EmptyString
          /\ (seenLength seen <> 0%Z \/ seenOutputDir seen <> EmptyString)) ->
      In f newFiles ->
      ~ In (TrackedFile.path f) (map TrackedFile.path (files (ui w))) ->
      TrackedFile.status f = FileStatus.pending ->
      canStart (ui (snd (handleFilesAddedWith seen newFiles w))) = true)
  /\
  (let w := MoreSamples.legacy_start in
   let w1 := snd (Cells.setOverwrite false (snd (setOutputDir "/out" w))) in
   let f := Samples.photo "f9" "/a.png" in
   outputDir (ui w1) = "/out"%string
   /\ overwrite (ui w1) = false
   /\ isProcessing (ui w1) = false
   /\ TrackedFile.status f = FileStatus.pending
   /\ canStart (ui (snd (handleFilesAddedWith (closureOf (ui w)) [f] w1))) = false).
Proof.
  split; [| vm_compute; repeat split].
  intros Fmt seen w newFiles f Hidle Hdest Hin Hnew Hpending.
  pose proof (handleFilesAddedWith_files seen newFiles w) as [Hfiles _].
  assert (Hkeep : outputDir (ui (snd (handleFilesAddedWith seen newFiles w)))
                  = outputDir (ui w)
                  \/ overwrite (ui w) = true).
  { destruct Hdest as [Ho | [_ Hd]]; [now right | left].
    now apply captured_values_keep_the_output_directory. }
  assert (Hfresh : In f (uniqueNewFiles (files (ui w)) newFiles))
    by (apply uniqueNewFiles_In; auto).
  assert (Hsame : overwrite (ui (snd (handleFilesAddedWith seen newFiles w)))
                  = overwrite (ui w)
                  /\ isProcessing (ui (snd (handleFilesAddedWith seen newFiles w)))
                     = isProcessing (ui w)).
  { unfold handleFilesAddedWith, bind.
    assert (Hd : overwrite (ui (snd (defaultOutputDir seen newFiles w)))
                 = overwrite (ui w)
                 /\ isProcessing (ui (snd (defaultOutputDir seen newFiles w)))
                    = isProcessing (ui w)).
    { unfold defaultOutputDir. destruct newFiles as [|g gs]; [split; reflexivity |].
      destruct (_ && _); [| split; reflexivity].
      destruct (negb _); split; reflexivity. }
    destruct (defaultOutputDir seen newFiles w) as [[] w1]. simpl in Hd.
    destruct Hd as [<- <-]. unfold appendFiles, bind.
    destruct (_ && _); [destruct (0 <? _)%Z |]; split; reflexivity. }
  destruct Hsame as [Ho Hp].
  unfold canStart. rewrite Ho, Hp, Hidle, Hfiles. simpl negb. rewrite andb_true_r.
  apply andb_true_iff. split; [apply andb_true_iff; split |].
  - apply Z.ltb_lt. unfold Js.length. rewrite length_app.
    destruct (uniqueNewFiles (files (ui w)) newFiles); [contradiction | simpl; lia].
  - destruct Hkeep as [Hk | Hk]; [| now rewrite Hk].
    rewrite Hk. destruct Hdest as [-> | [Hd _]]; [reflexivity |].
    destruct (outputDir (ui w)); [contradiction |]. apply orb_true_r.
  - apply existsb_exists. exists f. split; [apply in_or_app; now right |].
    now rewrite Hpending.
Qed.

End AfterAdding.

(** ** The properties above at sample inputs *)

Section Instances.
Import App MoreSamples.

Lemma file_picker_tracks_the_readable_paths_witness :
  exists trackedFiles,
    DropZone.handleFileInput disk false picked = Some trackedFiles
    /\ map TrackedFile.path trackedFiles
       = List.filter (fun p => match DropZone.stat disk p with
                               | Some _ => true
                               | None => false
                               end)
                     (DropZone.selectedPaths picked).
Proof.
  apply (proj1 (proj2 file_picker_tracks_the_readable_paths) disk picked).
  - reflexivity.
  - vm_compute. discriminate.
Defined.

Lemma drop_tracks_every_image_name_witness :
  exists trackedFiles,
    snd (DropZone.handleDrop disk false dropped) = Some trackedFiles
    /\ map TrackedFile.name trackedFiles
       = List.filter DropZone.isValidImageFile (map DropZone.name dropped).
Proof.
  destruct (proj1 (proj2 (proj2 (proj2 (drop_tracks_every_image_name disk false dropped))))
              eq_refl)
    as (trackedFiles & Hcall & Hnames & _).
  - vm_compute. discriminate.
  - exists trackedFiles. split; assumption.
Defined.

Lemma enabled_start_button_submits_one_batch_witness :
  sent (exec (Legacy.handleStart Samples.accepting) legacy_two)
  = [optimize_batch (Legacy.request legacy_two)].
Proof.
  apply (proj1 enabled_start_button_submits_one_batch Samples.accepting legacy_two).
  reflexivity.
Defined.

Lemma batch_run_keeps_settings_and_sources_witness :
  isProcessing (ui (exec (Current.handleStart Samples.accepting) current_two)) = false.
Proof.
  apply (proj2 batch_run_keeps_settings_and_sources Samples.accepting current_two).
  reflexivity.
Defined.

Lemma resolved_batch_shows_first_result_per_path_witness :
  Forall (Observe.shows two_converted)
         (files (ui (exec (Legacy.handleStart Samples.accepting) legacy_two))).
Proof.
  apply (proj1 resolved_batch_shows_first_result_per_path Samples.accepting
           legacy_two two_converted); reflexivity.
Defined.


Lemma fully_successful_batch_disables_start_witness :
  canStart (ui (exec (Legacy.handleStart Samples.accepting) legacy_two)) = false.
Proof.
  apply (proj1 fully_successful_batch_disables_start Samples.accepting
           legacy_two two_converted); try reflexivity.
  repeat constructor; eexists; split; reflexivity.
Defined.


Lemma adding_tracked_files_changes_nothing_witness :
  snd (handleFilesAddedWith (closureOf (ui legacy_tracking))
         [Samples.photo "f9" "/img/a.png"] legacy_tracking)
  = legacy_tracking.
Proof.
  destruct (proj1 (@adding_tracked_files_changes_nothing Legacy.OutputFormat)
              (closureOf (ui legacy_tracking))
              [Samples.photo "f9" "/img/a.png"] legacy_tracking)
    as (_ & _ & _ & _ & Hsame).
  - intros f [<- | []]. simpl. tauto.
  - apply Hsame. left. vm_compute. discriminate.
Defined.

Lemma first_addition_sets_output_directory_witness :
  outputDir (ui (snd (handleFilesAddedWith (mkClosure 0 "")
                        [Samples.photo "f9" "/tmp/c.png"] legacy_tracking)))
  = "/tmp".
Proof.
  apply (first_addition_sets_output_directory (mkClosure 0 "") legacy_tracking
           (Samples.photo "f9" "/tmp/c.png") [] "/tmp" "c.png" "/"%char);
    reflexivity.
Defined.

Lemma addition_keeps_the_output_directory_witness :
  outputDir (ui (snd (handleFilesAddedWith (closureOf (ui legacy_tracking))
                        [Samples.photo "f9" "/tmp/c.png"] legacy_tracking)))
  = "/out".
Proof.
  apply (addition_keeps_the_output_directory (closureOf (ui legacy_tracking))
           legacy_tracking [Samples.photo "f9" "/tmp/c.png"]).
  right. left. discriminate.
Defined.

Lemma first_addition_seeds_maximum_dimensions_witness :
  (800 <= maxWidth (ui (snd (handleFilesAdded two_files legacy_start))))%Z
  /\ (600 <= maxHeight (ui (snd (handleFilesAdded two_files legacy_start))))%Z.
Proof.
  apply (proj2 (proj2 (proj1 (@first_addition_seeds_maximum_dimensions
                                 Legacy.OutputFormat)
                         legacy_start two_files eq_refl
                         ltac:(vm_compute; discriminate)))
           (Samples.photo "f1" "/img/a.png") 800%Z 600%Z);
    (reflexivity || discriminate || (simpl; tauto)).
Defined.

Lemma removing_an_added_file_restores_the_list_witness :
  files (ui (snd (handleFileRemove "f9"
                    (snd (handleFilesAdded [Samples.photo "f9" "/tmp/c.png"]
                                           legacy_tracking)))))
  = two_files.
Proof.
  apply (removing_an_added_file_restores_the_list Legacy.OutputFormat legacy_tracking
           (Samples.photo "f9" "/tmp/c.png")).
  - simpl. intros [H | [H | []]]; discriminate.
  - simpl. intros [H | [H | []]]; discriminate.
Defined.

Lemma current_panel_shows_what_is_sent_witness :
  CurrentPanel.showsDimensions current_resizing = true.
Proof.
  apply (current_panel_shows_what_is_sent current_resizing).
  left. discriminate.
Defined.

Lemma legacy_panel_shows_what_is_sent_witness :
  LegacyPanel.showsResize legacy_resizing = true.
Proof.
  apply (legacy_panel_shows_what_is_sent legacy_resizing).
  left. discriminate.
Defined.

Lemma folder_input_and_output_dir_witness :
  Request.output_dir (Legacy.request legacy_resizing) = "/out".
Proof.
  apply (proj1 folder_input_and_output_dir legacy_resizing). reflexivity.
Defined.

Lemma resize_fields_exclude_each_other_witness :
  (0 < 1920)%Z /\ 1920%Z = maxWidth current_resizing.
Proof.
  apply (resize_fields_exclude_each_other current_resizing). reflexivity.
Defined.

Lemma format_change_sets_the_default_quality_witness :
  Request.quality
    (Current.request (ui (snd (CurrentFormat.handleFormatChange Current.jpeg current_start))))
  = Some 85%Z.
Proof.
  apply (proj2 format_change_sets_the_default_quality Current.jpeg current_start).
  reflexivity.
Defined.

Lemma seeded_dimensions_are_the_panel_maxima_witness :
  maxWidth (ui (snd (handleFilesAdded two_files current_start)))
  = CurrentPanel.maxOriginalWidth (ui (snd (handleFilesAdded two_files current_start)))
  /\ maxHeight (ui (snd (handleFilesAdded two_files current_start)))
     = CurrentPanel.maxOriginalHeight (ui (snd (handleFilesAdded two_files current_start))).
Proof.
  apply (proj2 seeded_dimensions_are_the_panel_maxima current_start two_files).
  - reflexivity.
  - vm_compute. discriminate.
Defined.

Lemma adding_a_pending_file_enables_start_witness :
  canStart (ui (snd (handleFilesAddedWith (closureOf (ui legacy_start))
                       two_files legacy_start))) = true.
Proof.
  apply (proj1 adding_a_pending_file_enables_start Legacy.OutputFormat
           (closureOf (ui legacy_start)) legacy_start two_files
           (Samples.photo "f1" "/img/a.png")).
  - reflexivity.
  - left. reflexivity.
  - simpl. tauto.
  - simpl. tauto.
  - reflexivity.
Defined.

End Instances.
